(** * runner: the model-prediction command line wrapper (model/run.py)

  A shallow embedding of [model/run.py]: the candidate-directory
  discovery, the model-path resolver, the model loader and the [main]
  entry point with its JSON success and error envelopes.

  Python's library calls that touch the operating system (pathlib's
  [resolve], [cwd] and [exists], pandas' [read_csv], [pickle.load], the
  model's [predict], [argparse]) are oracles of a [World] record; the
  pure part of pathlib is the [Pathlib] class, instantiated for the
  examples by a POSIX flavour.  Every computation runs in a small monad
  that logs the observable events and distinguishes an ordinary
  exception (caught by [except Exception]) from [SystemExit].

  The lookups that the source guards with [try] ([resolve]) and the one
  it leaves unguarded ([Path.cwd()]) may raise.  The model covers the
  runs in which every [exists()] call answers with a boolean and in
  which writing to and flushing the standard streams does not fail: an
  interpreter whose [exists()] re-raises an [OSError] (a name too long,
  say) leaves it at that call. *)

From Stdlib Require Import String Ascii List Bool ZArith Lia DecimalString.
Import ListNotations.
Local Open Scope string_scope.
Local Open Scope list_scope.

Set Implicit Arguments.

(** String concatenation, Python's [+] on [str]. *)
Infix "+++" := String.append (right associativity, at level 60).

(** ** Strings *)

Module Str.

Definition dquote : string := String "034"%char EmptyString.
Definition squote : string := String "039"%char EmptyString.
Definition backslash : string := String "092"%char EmptyString.
Definition newline : string := String "010"%char EmptyString.

(** [", ".join(l)] *)
Fixpoint join (sep : string) (l : list string) : string :=
  match l with
  | [] => EmptyString
  | [x] => x
  | x :: rest => x +++ sep +++ join sep rest
  end.

(** [s in t] on Python strings. *)
Fixpoint infixb (s t : string) : bool :=
  prefix s t ||
  match t with
  | EmptyString => false
  | String _ t' => infixb s t'
  end.

Definition infix_of (s t : string) : Prop :=
  exists pre post, t = pre +++ s +++ post.

Fixpoint mem_char (c : ascii) (s : string) : bool :=
  match s with
  | EmptyString => false
  | String d s' => Ascii.eqb c d || mem_char c s'
  end.

End Str.

(** ** Python exceptions and the effect monad *)

Inductive exc_class : Type :=
| FileNotFoundError
| ValueError
| KeyError
| IndexError
| LibraryError (name : string).

(** An exception object; [exc_str] is what [str(e)] gives. *)
Record exn : Type := Exn { exc_type : exc_class; exc_str : string }.

Inductive stream : Type := Stdout | Stderr.

Section Effects.

(** The type of path objects is fixed later by the [Pathlib] class. *)
Variable Path : Type.

Inductive event : Type :=
| EvProbe (p : Path)                     (* p.exists() *)
| EvReadCsv (file : string)              (* pd.read_csv(file) *)
| EvOpenModel (p : Path)                 (* open(p, "rb"); pickle.load *)
| EvPredict                              (* model.predict(df) *)
| EvWrite (st : stream) (text : string)  (* sys.stdout.write / sys.stderr.write *)
| EvArgparse (st : stream) (text : string). (* text printed by argparse itself *)

(** How a computation ends: a value, an exception that
    [except Exception] catches, or [SystemExit], which it does not. *)
Inductive outcome (A : Type) : Type :=
| Ret (a : A)
| Raise (e : exn)
| Exit (code : Z).

Arguments Raise {A} e.
Arguments Exit {A} code.

Definition M (A : Type) : Type := (list event * outcome A)%type.

Definition ret {A} (a : A) : M A := ([], Ret a).
Definition raise {A} (e : exn) : M A := ([], Raise e).
Definition sys_exit {A} (code : Z) : M A := ([], Exit code).
Definition emit (ev : event) : M unit := ([ev], Ret tt).

Definition bind {A B} (m : M A) (k : A -> M B) : M B :=
  match m with
  | (l, Ret a) => (l ++ fst (k a), snd (k a))
  | (l, Raise e) => (l, Raise e)
  | (l, Exit c) => (l, Exit c)
  end.

(** [try: body  except Exception as e: handler(e)] *)
Definition try_except {A} (body : M A) (handler : exn -> M A) : M A :=
  match body with
  | (l, Raise e) => (l ++ fst (handler e), snd (handler e))
  | other => other
  end.

(** A library call of the world that returns or raises, without events. *)
Definition lift {A} (r : exn + A) : M A :=
  match r with
  | inl e => raise e
  | inr a => ret a
  end.

Definition log_of {A} (m : M A) : list event := fst m.
Definition result_of {A} (m : M A) : outcome A := snd m.

(** What the streams hold at the end of the run. *)
Fixpoint written (st : stream) (l : list event) : string :=
  match l with
  | [] => EmptyString
  | EvWrite Stdout s :: l' | EvArgparse Stdout s :: l' =>
      match st with Stdout => s +++ written st l' | Stderr => written st l' end
  | EvWrite Stderr s :: l' | EvArgparse Stderr s :: l' =>
      match st with Stderr => s +++ written st l' | Stdout => written st l' end
  | _ :: l' => written st l'
  end.

(** The exit status of the process: the code of [SystemExit], 0 when the
    script runs to its end, 1 on an uncaught exception. *)
Definition exit_status {A} (r : outcome A) : Z :=
  match r with
  | Ret _ => 0
  | Raise _ => 1
  | Exit c => c
  end.

End Effects.

Arguments Raise {A} e.
Arguments Exit {A} code.
Arguments EvReadCsv {Path} file.
Arguments EvPredict {Path}.
Arguments EvWrite {Path} st text.
Arguments EvArgparse {Path} st text.
Arguments ret {Path A} a.
Arguments raise {Path A} e.
Arguments sys_exit {Path A} code.
Arguments lift {Path A} r.

Declare Scope py_scope.
Delimit Scope py_scope with py.
Notation "x <- c1 ;; c2" := (bind c1 (fun x => c2))
(at level 61, c1 at next level, right associativity) : py_scope.
Notation "c1 ;; c2" := (bind c1 (fun _ => c2))
(at level 61, right associativity) : py_scope.
Notation "' pat <- c1 ;; c2" := (bind c1 (fun x => match x with pat => c2 end))
(at level 61, pat pattern, c1 at next level, right associativity) : py_scope.
Local Open Scope py_scope.

(** ** Library values: paths, tables, models, JSON *)

(** The pure part of [pathlib]: building a path from a string, its string
    form, joining, the parent directory, and equality ([==], which [in]
    and [not in] on a list of paths use). *)
Class Pathlib : Type := {
  Path : Type;
  Path_eq_dec : forall a b : Path, {a = b} + {a <> b};
  Path_of : string -> Path;
  str : Path -> string;
  joinpath : Path -> string -> Path;
  parent : Path -> Path
}.

(** A table read by pandas: a missing value (NaN) is [None]. *)
Definition cell : Type := option string.
Definition row : Type := list cell.
Record DataFrame : Type := { columns : list string; rows : list row }.

Definition present (c : cell) : bool :=
  match c with Some _ => true | None => false end.

(** [df.dropna()]: keeps the rows without a missing value. *)
Definition dropna (df : DataFrame) : DataFrame :=
  {| columns := columns df; rows := filter (forallb present) (rows df) |}.

(** [df.shape[0]] *)
Definition shape0 (df : DataFrame) : nat := length (rows df).

(** The unpickled model: one capability, [predict], which returns the
    class codes or raises. *)
Record Model : Type := { predict : DataFrame -> exn + list Z }.

(** The values the two envelopes hold. *)
Inductive jvalue : Type :=
| JBool (b : bool)
| JStr (s : string).

Module Json.

Definition hex_digit (n : nat) : string :=
  String (nth n (list_ascii_of_string "0123456789abcdef") "0"%char) EmptyString.

(** One character of [json.dumps(..., ensure_ascii=False)]: the quote, the
    backslash and the control characters are escaped, everything else is
    copied. *)
Definition escape_char (c : ascii) : string :=
  let n := nat_of_ascii c in
  if Nat.eqb n 34 then Str.backslash +++ Str.dquote
  else if Nat.eqb n 92 then Str.backslash +++ Str.backslash
  else if Nat.eqb n 10 then Str.backslash +++ "n"
  else if Nat.eqb n 13 then Str.backslash +++ "r"
  else if Nat.eqb n 9 then Str.backslash +++ "t"
  else if Nat.eqb n 8 then Str.backslash +++ "b"
  else if Nat.eqb n 12 then Str.backslash +++ "f"
  else if Nat.ltb n 32 then
    Str.backslash +++ "u00" +++ hex_digit (n / 16) +++ hex_digit (n mod 16)
  else String c EmptyString.

Fixpoint escape (s : string) : string :=
  match s with
  | EmptyString => EmptyString
  | String c s' => escape_char c +++ escape s'
  end.

Definition quoted (s : string) : string := Str.dquote +++ escape s +++ Str.dquote.

Definition dumps_value (v : jvalue) : string :=
  match v with
  | JBool true => "true"
  | JBool false => "false"
  | JStr s => quoted s
  end.

Definition dumps_item (kv : string * jvalue) : string :=
  quoted (fst kv) +++ ": " +++ dumps_value (snd kv).

(** [json.dumps(d, ensure_ascii=False)] for a dict of booleans and strings. *)
Definition dumps (d : list (string * jvalue)) : string :=
  "{" +++ Str.join ", " (map dumps_item d) +++ "}".

Definition get (k : string) (d : list (string * jvalue)) : option jvalue :=
  match find (fun kv => String.eqb (fst kv) k) d with
  | Some kv => Some (snd kv)
  | None => None
  end.

End Json.

(** ** The process and its environment *)

(** What [parser.parse_args()] does with the command line: it returns the
    namespace, or prints the usage and an error to stderr and raises
    [SystemExit(2)], or prints the help to stdout and raises
    [SystemExit(0)]. *)
Record Namespace : Type := { ns_csv : string; ns_model : option string }.

Inductive parse_outcome : Type :=
| Parsed (args : Namespace)
| ParseError (usage_and_error : string)
| ParseHelp (help : string).

Section Program.

Context {PL : Pathlib}.

Record World : Type := {
  (* the interpreter *)
  dunder_file : string;                 (* __file__ *)
  sys_argv0 : string;                   (* sys.argv[0] *)
  sys_args : list string;               (* sys.argv[1:] *)
  sys_meipass : option string;          (* getattr(sys, "_MEIPASS", None) *)
  argparse : list string -> parse_outcome;
  py_repr : string -> string;           (* repr(s) of a str *)
  repr_code : Z -> string;              (* repr of a class code *)
  format_exc : exn -> string;           (* traceback.format_exc() *)
  (* the file system *)
  resolve : Path -> exn + Path;         (* p.resolve() *)
  getcwd : exn + Path;                  (* Path.cwd() *)
  path_exists : Path -> bool;           (* p.exists() *)
  read_csv : string -> exn + DataFrame; (* pd.read_csv(file) *)
  pickle_load : Path -> exn + Model     (* open(p, "rb") and pickle.load(f) *)
}.

Variable w : World.

Local Abbreviation Py := (M Path).

(** Python's truth value of a string: false on the empty one only. *)
Definition truthy (s : string) : bool :=
  match s with EmptyString => false | String _ _ => true end.

(** [p.exists()], logged. *)
Definition probe (p : Path) : Py bool :=
  emit (EvProbe p) ;; ret (path_exists w p).

Definition mem (d : Path) (dirs : list Path) : bool :=
  if in_dec Path_eq_dec d dirs then true else false.

(** [if d not in dirs: dirs.append(d)] *)
Definition append_if_new (d : Path) (dirs : list Path) : list Path :=
  if mem d dirs then dirs else dirs ++ [d].

(** [if d not in dirs: dirs.insert(0, d)] *)
Definition insert_front_if_new (d : Path) (dirs : list Path) : list Path :=
  if mem d dirs then dirs else d :: dirs.

Definition candidate_dirs : Py (list Path) :=
  let dirs : list Path := [] in
  dirs <- try_except
            (p <- lift (resolve w (Path_of (dunder_file w))) ;;
             ret (dirs ++ [parent p]))
            (fun _ => ret dirs) ;;
  dirs <- try_except
            (p <- lift (resolve w (Path_of (sys_argv0 w))) ;;
             let argv0_dir := parent p in
             ret (append_if_new argv0_dir dirs))
            (fun _ => ret dirs) ;;
  let meipass := sys_meipass w in
  dirs <- match meipass with
          | Some mp =>
              if truthy mp then
                try_except
                  (let meipass_path := Path_of mp in
                   ret (insert_front_if_new meipass_path dirs))
                  (fun _ => ret dirs)
              else ret dirs
          | None => ret dirs
          end ;;
  cwd <- lift (getcwd w) ;;
  ret (append_if_new cwd dirs).

(** The inner loop of [find_model_file]: the names under one directory. *)
Fixpoint find_in_dir (d : Path) (candidate_names : list string) : Py (option Path) :=
  match candidate_names with
  | [] => ret None
  | name :: rest =>
      let p := joinpath d name in
      b <- probe p ;;
      if b then ret (Some p) else find_in_dir d rest
  end.

(** The outer loop of [find_model_file]. *)
Fixpoint find_in_dirs (dirs : list Path) (candidate_names : list string) : Py (option Path) :=
  match dirs with
  | [] => ret None
  | d :: rest =>
      r <- find_in_dir d candidate_names ;;
      match r with
      | Some p => ret (Some p)
      | None => find_in_dirs rest candidate_names
      end
  end.

Definition find_model_file (candidate_names : list string) : Py (option Path) :=
  dirs <- candidate_dirs ;;
  find_in_dirs dirs candidate_names.

(** The loop of [prepare_model_path] over the candidate directories: the
    explicit path joined to each one, recorded, then probed. *)
Fixpoint try_bases (cli_model : string) (bases : list Path) (tried : list string)
  : Py (option Path * list string) :=
  match bases with
  | [] => ret (None, tried)
  | base :: rest =>
      let candidate := joinpath base cli_model in
      let tried := tried ++ [str candidate] in
      b <- probe candidate ;;
      if b then ret (Some candidate, tried) else try_bases cli_model rest tried
  end.

Definition candidates : list string :=
  ["model/RF_binary_v1.pickle"; "RF_binary_v1.pickle"].

(** Lines 65 to 75: the default flow, entered with the paths recorded so far. *)
Definition default_flow (tried : list string) : Py (Path * list string) :=
  found <- find_model_file candidates ;;
  match found with
  | Some f => ret (f, [str f])
  | None =>
      dirs <- candidate_dirs ;;
      let tried :=
        tried ++ flat_map (fun d => map (fun name => str (joinpath d name)) candidates) dirs in
      ret (Path_of (hd EmptyString candidates), tried)
  end.

Definition prepare_model_path (cli_model : option string) : Py (Path * list string) :=
  let tried : list string := [] in
  match cli_model with
  | Some s =>
      if truthy s then
        let p := Path_of s in
        let tried := tried ++ [str p] in
        b <- probe p ;;
        if b then ret (p, tried)
        else
          bases <- candidate_dirs ;;
          r <- try_bases s bases tried ;;
          match r with
          | (Some candidate, tried) => ret (candidate, tried)
          | (None, tried) => default_flow tried
          end
      else default_flow tried
  | None => default_flow tried
  end.

Definition load_model_from_path (p : Path) : Py Model :=
  b <- probe p ;;
  (if negb b
   then raise (Exn FileNotFoundError ("模型文件不存在: " +++ str p))
   else ret tt) ;;
  emit (EvOpenModel p) ;;
  lift (pickle_load w p).

(** [f"{tried_paths}"]: the [str] of a list of strings. *)
Definition py_list_repr (l : list string) : string :=
  "[" +++ Str.join ", " (map (py_repr w) l) +++ "]".

(** [parser.parse_args()] for the parser of lines 87 to 94. *)
Definition parse_args : Py Namespace :=
  match argparse w (sys_args w) with
  | Parsed args => ret args
  | ParseError text => emit (EvArgparse Stderr text) ;; sys_exit 2
  | ParseHelp text => emit (EvArgparse Stdout text) ;; sys_exit 0
  end.

(** [mapping[code]] with [mapping = {0: "BPA", 1: "UPA"}] *)
Definition mapping (code : Z) : Py string :=
  if Z.eqb code 0 then ret "BPA"
  else if Z.eqb code 1 then ret "UPA"
  else raise (Exn KeyError (repr_code w code)).

(** [preds[0]] *)
Definition first_pred (preds : list Z) : Py Z :=
  match preds with
  | code :: _ => ret code
  | [] => raise (Exn IndexError "index 0 is out of bounds for axis 0 with size 0")
  end.

Definition success_obj (label : string) : list (string * jvalue) :=
  [("success", JBool true); ("results", JStr label)].

Definition error_obj (e : exn) : list (string * jvalue) :=
  [("success", JBool false); ("error", JStr (exc_str e));
   ("traceback", JStr (format_exc w e))].

(** The body of the [try] of [main], lines 87 to 127. *)
Definition main_body : Py unit :=
  args <- parse_args ;;
  let csv_path := Path_of (ns_csv args) in
  b <- probe csv_path ;;
  (if negb b
   then raise (Exn FileNotFoundError ("输入 CSV 未找到: " +++ str csv_path))
   else ret tt) ;;
  '(model_path, tried_paths) <- prepare_model_path (ns_model args) ;;
  emit (EvReadCsv (str csv_path)) ;;
  df <- lift (read_csv w (str csv_path)) ;;
  let df := dropna df in
  (if Nat.eqb (shape0 df) 0
   then raise (Exn ValueError "No rows after dropna()")
   else ret tt) ;;
  model <- try_except
             (load_model_from_path model_path)
             (fun load_exc =>
                raise (Exn FileNotFoundError
                         ("无法加载模型: attempted paths: " +++ py_list_repr tried_paths
                          +++ ". Exception: " +++ exc_str load_exc))) ;;
  emit EvPredict ;;
  preds <- lift (predict model df) ;;
  code <- first_pred preds ;;
  label <- mapping code ;;
  let out := success_obj label in
  emit (EvWrite Stdout (Json.dumps out +++ Str.newline)) ;;
  sys_exit 0.

(** The [except Exception as e] of [main], lines 129 to 135. *)
Definition main_handler (e : exn) : Py unit :=
  let err_obj := error_obj e in
  emit (EvWrite Stderr (Json.dumps err_obj +++ Str.newline)) ;;
  sys_exit 2.

Definition main : Py unit := try_except main_body main_handler.

(** *** Vocabulary of the statements *)

(** The directories found by lines 14 to 24: the script's, then the one of
    [sys.argv[0]]; a lookup that raises contributes nothing. *)
Definition script_dirs : list Path :=
  match resolve w (Path_of (dunder_file w)) with
  | inr p => [parent p]
  | inl _ => []
  end.

Definition launch_dirs : list Path :=
  match resolve w (Path_of (sys_argv0 w)) with
  | inr p => append_if_new (parent p) script_dirs
  | inl _ => script_dirs
  end.

(** The frozen-bundle directory, when the interpreter exposes one. *)
Definition bundle_dir : option Path :=
  match sys_meipass w with
  | Some mp => if truthy mp then Some (Path_of mp) else None
  | None => None
  end.

Definition bundled_dirs : list Path :=
  match bundle_dir with
  | Some b => insert_front_if_new b launch_dirs
  | None => launch_dirs
  end.

(** The paths [d/name] in the order of the two nested loops. *)
Definition default_paths (dirs : list Path) : list Path :=
  flat_map (fun d => map (fun name => joinpath d name) candidates) dirs.

(** The explicit path joined to each directory. *)
Definition joined_paths (cli_model : string) (dirs : list Path) : list Path :=
  map (fun base => joinpath base cli_model) dirs.


(** Where a candidate directory can come from: the script, [sys.argv[0]],
    the frozen bundle, the working directory. *)
Definition dir_source (d : Path) : Prop :=
  (exists p, resolve w (Path_of (dunder_file w)) = inr p /\ d = parent p) \/
  (exists p, resolve w (Path_of (sys_argv0 w)) = inr p /\ d = parent p) \/
  (exists mp, sys_meipass w = Some mp /\ truthy mp = true /\ d = Path_of mp) \/
  getcwd w = inr d.

(** The explicit path is given, non-empty, and exists as given. *)
Definition found_as_given (cli_model : option string) : bool :=
  match cli_model with
  | Some s => truthy s && path_exists w (Path_of s)
  | None => false
  end.

(** The explicit path as given, then joined to each directory. *)
Definition explicit_paths (cli_model : string) (dirs : list Path) : list Path :=
  Path_of cli_model :: joined_paths cli_model dirs.

(** The candidate directories when the working directory is [c]. *)
Definition dirs_with_cwd (c : Path) : list Path := append_if_new c bundled_dirs.

(** The paths a first-match loop probes: up to the first existing one. *)
Fixpoint probed_until (ps : list Path) : list Path :=
  match ps with
  | [] => []
  | p :: rest => if path_exists w p then [p] else p :: probed_until rest
  end.

Definition first_existing (ps : list Path) : option Path := find (path_exists w) ps.

(** The paths probed by [exists()] in a log, in order. *)
Fixpoint probed (l : list (event Path)) : list Path :=
  match l with
  | [] => []
  | EvProbe p :: l' => p :: probed l'
  | _ :: l' => probed l'
  end.

Definition is_probe (ev : event Path) : bool :=
  match ev with EvProbe _ => true | _ => false end.

Definition is_write (ev : event Path) : bool :=
  match ev with EvWrite _ _ => true | _ => false end.

(** The events of loading the model and of predicting. *)
Definition is_model_work (ev : event Path) : bool :=
  match ev with EvOpenModel _ | EvPredict => true | _ => false end.

(** The events that put text on a stream. *)
Definition shown (ev : event Path) : bool :=
  match ev with EvWrite _ _ | EvArgparse _ _ => true | _ => false end.

(** A relative default name is looked up from the working directory [c]. *)
Definition cwd_relative (c : Path) : Prop :=
  forall name, In name candidates ->
    path_exists w (Path_of name) = path_exists w (joinpath c name).

Definition label_of (code : Z) : string := if Z.eqb code 0 then "BPA" else "UPA".

(** The line of the success envelope, character by character. *)
Definition success_line (label : string) : string :=
  "{" +++ Str.dquote +++ "success" +++ Str.dquote +++ ": true, "
  +++ Str.dquote +++ "results" +++ Str.dquote +++ ": "
  +++ Str.dquote +++ label +++ Str.dquote +++ "}" +++ Str.newline.

(** The line of the error envelope for the exception [e]. *)
Definition error_line (e : exn) : string := Json.dumps (error_obj e) +++ Str.newline.

Definition csv_not_found (csv : string) : exn :=
  Exn FileNotFoundError ("输入 CSV 未找到: " +++ str (Path_of csv)).

Definition no_rows : exn := Exn ValueError "No rows after dropna()".

Definition model_missing (p : Path) : exn :=
  Exn FileNotFoundError ("模型文件不存在: " +++ str p).

Definition load_failed (tried_paths : list string) (load_exc : exn) : exn :=
  Exn FileNotFoundError
    ("无法加载模型: attempted paths: " +++ py_list_repr tried_paths
     +++ ". Exception: " +++ exc_str load_exc).

(** How a returned pair came about. *)
Inductive resolution (cli_model : option string) (log : list (event Path))
          (p : Path) (tried : list string) : Prop :=
| ExplicitHit (s : string) (pre : list Path) :
    cli_model = Some s -> truthy s = true ->
    log = map (@EvProbe Path) (pre ++ [p]) ->
    tried = map str (pre ++ [p]) ->
    path_exists w p = true ->
    (forall q, In q pre -> path_exists w q = false) ->
    resolution cli_model log p tried
| DefaultHit (pre : list Path) :
    log = map (@EvProbe Path) (pre ++ [p]) ->
    tried = [str p] ->
    path_exists w p = true ->
    (forall q, In q pre -> path_exists w q = false) ->
    resolution cli_model log p tried
| NothingFound (ps : list Path) :
    p = Path_of "model/RF_binary_v1.pickle" ->
    log = map (@EvProbe Path) ps ->
    tried = map str ps ->
    ps <> [] ->
    (forall q, In q ps -> path_exists w q = false) ->
    resolution cli_model log p tried.

(** The four ways a run of [main] can end, by what it shows. *)
Inductive run_shape : M Path unit -> Prop :=
| RunSuccess (log : list (event Path)) (label : string) :
    filter shown log = [EvWrite Stdout (success_line label)] ->
    label = "BPA" \/ label = "UPA" ->
    run_shape (log, Exit 0)
| RunFailure (log : list (event Path)) (e : exn) :
    filter shown log = [EvWrite Stderr (error_line e)] ->
    run_shape (log, Exit 2)
| RunUsage (text : string) : run_shape ([EvArgparse Stderr text], Exit 2)
| RunHelp (text : string) : run_shape ([EvArgparse Stdout text], Exit 0).

End Program.

(** A line: text without a line feed, then one line feed. *)
Definition lf : ascii := "010"%char.

Definition single_line (s : string) : Prop :=
  exists body, s = body +++ Str.newline /\ Str.mem_char lf body = false.

(** ** The POSIX flavour of pathlib *)

Module Posix.

(** A pure POSIX path: the root (empty, one slash, or exactly two) and the
    components, without the empty and the [.] ones. *)
Record path : Type := { root : string; parts : list string }.

Fixpoint split (s : string) : list string :=
  match s with
  | EmptyString => [EmptyString]
  | String c s' =>
      if Ascii.eqb c "/"%char then EmptyString :: split s'
      else match split s' with
           | x :: r => String c x :: r
           | [] => [String c EmptyString]
           end
  end.

Definition kept (x : string) : bool :=
  negb (String.eqb x EmptyString) && negb (String.eqb x ".").

Definition components (s : string) : list string := filter kept (split s).

Definition root_of (s : string) : string :=
  if prefix "///" s then "/"
  else if prefix "//" s then "//"
  else if prefix "/" s then "/"
  else EmptyString.

Definition of_string (s : string) : path :=
  {| root := root_of s; parts := components s |}.

Definition to_string (p : path) : string :=
  match root p, parts p with
  | EmptyString, [] => "."
  | r, ps => r +++ Str.join "/" ps
  end.

Definition join (p : path) (s : string) : path :=
  if prefix "/" s then of_string s
  else {| root := root p; parts := parts p ++ components s |}.

Definition parent_of (p : path) : path :=
  {| root := root p; parts := removelast (parts p) |}.

Definition eq_dec (a b : path) : {a = b} + {a <> b}.
Proof.
  decide equality; [apply (list_eq_dec string_dec) | apply string_dec].
Defined.

Definition is_absolute (p : path) : bool :=
  negb (String.eqb (root p) EmptyString).

(** The path made absolute against the working directory [c]. *)
Definition absolute (c : path) (p : path) : path :=
  if is_absolute p then p
  else {| root := root c; parts := parts c ++ parts p |}.

End Posix.

#[export] Instance PosixPath : Pathlib := {|
  Path := Posix.path;
  Path_eq_dec := Posix.eq_dec;
  Path_of := Posix.of_string;
  str := Posix.to_string;
  joinpath := Posix.join;
  parent := Posix.parent_of
|}.

(** ** Example machines

    A small file system over POSIX paths, used to run the program on
    concrete command lines. *)

Module Example.

Local Open Scope string_scope.

Fixpoint assoc {A} (k : string) (l : list (string * A)) : option A :=
  match l with
  | [] => None
  | (k', v) :: rest => if String.eqb k k' then Some v else assoc k rest
  end.

Record Setup : Type := {
  files : list string;                    (* the absolute paths that exist *)
  workdir : option string;                (* None: the directory was removed *)
  script : string;                        (* __file__ *)
  argv0 : string;
  args : list string;
  meipass : option string;
  tables : list (string * DataFrame);     (* what read_csv parses, by file name *)
  models : list (string * Model)          (* what unpickles, by absolute path *)
}.

Definition enoent : exn :=
  Exn FileNotFoundError "[Errno 2] No such file or directory".

Definition located (s : Setup) (p : Posix.path) : option Posix.path :=
  if Posix.is_absolute p then Some p
  else match workdir s with
       | Some c => Some (Posix.absolute (Posix.of_string c) p)
       | None => None
       end.

Definition exists_in (s : Setup) (p : Posix.path) : bool :=
  match located s p with
  | Some q => existsb (String.eqb (Posix.to_string q)) (files s)
  | None => false
  end.

(** A stand-in for argparse on the parser of [main]: one positional, the
    option [--model]/[-m] with a value, and [-h]/[--help]. *)
Definition usage : string := "usage: run.py [-h] [--model MODEL] csv" +++ Str.newline.

Definition parse_error (msg : string) : parse_outcome :=
  ParseError (usage +++ "run.py: error: " +++ msg +++ Str.newline).

Fixpoint scan (l : list string) (csv : option string) (model : option string)
  : parse_outcome :=
  match l with
  | [] =>
      match csv with
      | Some c => Parsed {| ns_csv := c; ns_model := model |}
      | None => parse_error "the following arguments are required: csv"
      end
  | a :: rest =>
      if String.eqb a "-h" || String.eqb a "--help" then ParseHelp usage
      else if String.eqb a "--model" || String.eqb a "-m" then
        match rest with
        | v :: rest' => scan rest' csv (Some v)
        | [] => parse_error "argument --model/-m: expected one argument"
        end
      else if prefix "-" a then parse_error ("unrecognized arguments: " +++ a)
      else match csv with
           | None => scan rest (Some a) model
           | Some _ => parse_error ("unrecognized arguments: " +++ a)
           end
  end.

(** [repr] of a string without quotes, backslashes or control characters. *)
Definition simple_repr (s : string) : string := Str.squote +++ s +++ Str.squote.

(** [repr] of an integer class code. *)
Definition code_repr (z : Z) : string := NilZero.string_of_int (Z.to_int z).

Definition trace_text (e : exn) : string :=
  "Traceback (most recent call last):" +++ Str.newline +++ exc_str e +++ Str.newline.

Definition world (s : Setup) : World := {|
  dunder_file := script s;
  sys_argv0 := argv0 s;
  sys_args := args s;
  sys_meipass := meipass s;
  argparse := fun l => scan l None None;
  py_repr := simple_repr;
  repr_code := code_repr;
  format_exc := trace_text;
  resolve := fun p => match located s p with Some q => inr q | None => inl enoent end;
  getcwd := match workdir s with Some c => inr (Posix.of_string c) | None => inl enoent end;
  path_exists := exists_in s;
  read_csv := fun f =>
    match assoc f (tables s) with
    | Some df => inr df
    | None => inl (Exn (LibraryError "EmptyDataError") "No columns to parse from file")
    end;
  pickle_load := fun p =>
    match located s p with
    | Some q =>
        match assoc (Posix.to_string q) (models s) with
        | Some m => inr m
        | None => inl (Exn (LibraryError "UnpicklingError") "invalid load key")
        end
    | None => inl enoent
    end
|}.

(** A model that answers the same class code for every row. *)
Definition constant_model (code : Z) : Model :=
  {| predict := fun df => inr (map (fun _ => code) (rows df)) |}.

Definition table (rs : list row) : DataFrame := {| columns := ["f1"; "f2"]; rows := rs |}.

Definition good_rows : list row := [[Some "1.5"; None]; [Some "0.2"; Some "7"]].
Definition holey_rows : list row := [[Some "1.5"; None]; [None; Some "7"]].

(** The usual layout: the script and its model under [/app], run from
    [/work] on [/data/in.csv]. *)
Definition base : Setup := {|
  files := ["/data/in.csv"; "/data/holes.csv"; "/app/model/RF_binary_v1.pickle"];
  workdir := Some "/work";
  script := "/app/run.py";
  argv0 := "/app/run.py";
  args := ["/data/in.csv"];
  meipass := None;
  tables := [("/data/in.csv", table good_rows); ("/data/holes.csv", table holey_rows)];
  models := [("/app/model/RF_binary_v1.pickle", constant_model 1)]
|}.

Definition with_args (s : Setup) (l : list string) : Setup :=
  {| files := files s; workdir := workdir s; script := script s; argv0 := argv0 s;
     args := l; meipass := meipass s; tables := tables s; models := models s |}.

Definition with_files (s : Setup) (l : list string) : Setup :=
  {| files := l; workdir := workdir s; script := script s; argv0 := argv0 s;
     args := args s; meipass := meipass s; tables := tables s; models := models s |}.

Definition with_workdir (s : Setup) (d : option string) : Setup :=
  {| files := files s; workdir := d; script := script s; argv0 := argv0 s;
     args := args s; meipass := meipass s; tables := tables s; models := models s |}.

End Example.

(** * Properties *)

(** ** Strings *)

Module StrFacts.

Lemma append_nil_r (s : string) : s +++ EmptyString = s.
Proof. induction s as [|c s IH]; simpl; [reflexivity | now rewrite IH]. Qed.

Lemma append_assoc (a b c : string) : (a +++ b) +++ c = a +++ b +++ c.
Proof. induction a as [|x a IH]; simpl; [reflexivity | now rewrite IH]. Qed.

Lemma prefix_spec (s t : string) :
  prefix s t = true <-> exists post, t = s +++ post.
Proof.
  revert t. induction s as [|c s IH]; intros t.
  - split; [intros _; now exists t | intros _; now destruct t].
  - destruct t as [|d t]; simpl.
    + split; [discriminate | intros [post H]; discriminate].
    + destruct (ascii_dec c d) as [->|Hcd].
      * rewrite IH. split; intros [post H]; exists post.
        -- now rewrite H.
        -- now inversion H.
      * split; [discriminate | intros [post H]; inversion H; congruence].
Qed.

Lemma infixb_nil (s : string) : Str.infixb s EmptyString = prefix s EmptyString.
Proof. unfold Str.infixb. apply orb_false_r. Qed.

Lemma infixb_cons (s : string) (d : ascii) (t : string) :
  Str.infixb s (String d t) = prefix s (String d t) || Str.infixb s t.
Proof. reflexivity. Qed.

Lemma infixb_spec (s t : string) :
  Str.infixb s t = true <-> Str.infix_of s t.
Proof.
  unfold Str.infix_of. induction t as [|d t IH].
  - rewrite infixb_nil, prefix_spec. split.
    + intros [post H]. now exists EmptyString, post.
    + intros [pre [post H]]. destruct pre; [now exists post | discriminate].
  - rewrite infixb_cons, orb_true_iff, prefix_spec, IH. split.
    + intros [[post H] | [pre [post H]]].
      * now exists EmptyString, post.
      * exists (String d pre), post. simpl. now rewrite H.
    + intros [pre [post H]]. destruct pre as [|x pre]; simpl in H.
      * left. now exists post.
      * right. exists pre, post. now inversion H.
Qed.

Lemma infix_of_intro (pre s post : string) : Str.infix_of s (pre +++ s +++ post).
Proof. now exists pre, post. Qed.

Lemma infix_of_suffix (pre s : string) : Str.infix_of s (pre +++ s).
Proof. exists pre, EmptyString. now rewrite append_nil_r. Qed.

Lemma infix_of_trans (a b c : string) :
  Str.infix_of a b -> Str.infix_of b c -> Str.infix_of a c.
Proof.
  intros [p1 [q1 H1]] [p2 [q2 H2]]. exists (p2 +++ p1), (q1 +++ q2).
  rewrite H2, H1. now rewrite !append_assoc.
Qed.

Lemma mem_char_app (c : ascii) (a b : string) :
  Str.mem_char c (a +++ b) = Str.mem_char c a || Str.mem_char c b.
Proof.
  induction a as [|x a IH]; simpl; [reflexivity | now rewrite IH, orb_assoc].
Qed.

(** Every element of a list is inside the joined string. *)
Lemma infix_of_join (sep x : string) (l : list string) :
  In x l -> Str.infix_of x (Str.join sep l).
Proof.
  induction l as [|y l IH]; intros Hin; [destruct Hin|].
  destruct Hin as [->|Hin].
  - destruct l as [|z l]; simpl.
    + exists EmptyString, EmptyString. simpl. now rewrite append_nil_r.
    + exists EmptyString, (sep +++ Str.join sep (z :: l)). reflexivity.
  - specialize (IH Hin). destruct l as [|z l]; [destruct Hin|].
    destruct IH as [pre [post H]].
    exists (y +++ sep +++ pre), post.
    change (Str.join sep (y :: z :: l)) with (y +++ sep +++ Str.join sep (z :: l)).
    rewrite H. now rewrite !append_assoc.
Qed.

End StrFacts.

(** ** JSON lines *)

Module JsonFacts.

Import StrFacts.

Lemma escape_char_no_lf (c : ascii) : Str.mem_char lf (Json.escape_char c) = false.
Proof.
  destruct c as [[] [] [] [] [] [] [] []]; vm_compute; reflexivity.
Qed.

Lemma escape_no_lf (s : string) : Str.mem_char lf (Json.escape s) = false.
Proof.
  induction s as [|c s IH]; simpl; [reflexivity|].
  now rewrite mem_char_app, escape_char_no_lf, IH.
Qed.

Lemma quoted_no_lf (s : string) : Str.mem_char lf (Json.quoted s) = false.
Proof.
  unfold Json.quoted. now rewrite !mem_char_app, escape_no_lf.
Qed.

Lemma dumps_item_no_lf (kv : string * jvalue) :
  Str.mem_char lf (Json.dumps_item kv) = false.
Proof.
  unfold Json.dumps_item. rewrite !mem_char_app, quoted_no_lf.
  destruct kv as [k [[]|s]]; simpl; try reflexivity. apply quoted_no_lf.
Qed.

Lemma join_no_lf (l : list string) :
  (forall x, In x l -> Str.mem_char lf x = false) ->
  Str.mem_char lf (Str.join ", " l) = false.
Proof.
  induction l as [|x l IH]; intros H; [reflexivity|].
  destruct l as [|y l]; [apply H; now left|].
  change (Str.join ", " (x :: y :: l)) with (x +++ ", " +++ Str.join ", " (y :: l)).
  rewrite !mem_char_app, (H x (or_introl eq_refl)), IH; [reflexivity|].
  intros z Hz. apply H. now right.
Qed.

Lemma dumps_no_lf (d : list (string * jvalue)) : Str.mem_char lf (Json.dumps d) = false.
Proof.
  unfold Json.dumps. rewrite !mem_char_app, join_no_lf; [reflexivity|].
  intros x Hx. apply in_map_iff in Hx. destruct Hx as [kv [<- _]].
  apply dumps_item_no_lf.
Qed.

(** [json.dumps(d) + "\n"] is one line, whatever the strings of [d] hold. *)
Lemma dumps_single_line (d : list (string * jvalue)) :
  single_line (Json.dumps d +++ Str.newline).
Proof. exists (Json.dumps d). split; [reflexivity | apply dumps_no_lf]. Qed.

End JsonFacts.

(** ** The effect monad *)

Section MonadFacts.

Context {PL : Pathlib}.

Lemma bind_ret {A B} (l : list (event Path)) (a : A) (k : A -> M Path B) :
  bind (l, Ret a) k = (l ++ log_of (k a), result_of (k a)).
Proof. reflexivity. Qed.

Lemma bind_ret_nil {A B} (a : A) (k : A -> M Path B) : bind (ret a) k = k a.
Proof. unfold ret, bind. simpl. now destruct (k a). Qed.

Lemma bind_raise {A B} (l : list (event Path)) (e : exn) (k : A -> M Path B) :
  bind (l, Raise e) k = (l, Raise e).
Proof. reflexivity. Qed.

Lemma bind_exit {A B} (l : list (event Path)) (c : Z) (k : A -> M Path B) :
  bind (l, Exit c) k = (l, Exit c).
Proof. reflexivity. Qed.

Lemma bind_emit {B} (ev : event Path) (k : unit -> M Path B) :
  bind (emit ev) k = (ev :: log_of (k tt), result_of (k tt)).
Proof. reflexivity. Qed.

Lemma pair_eta {A} (m : M Path A) : (log_of m, result_of m) = m.
Proof. now destruct m. Qed.

Lemma written_app (st : stream) (l1 l2 : list (event Path)) :
  written st (l1 ++ l2) = written st l1 +++ written st l2.
Proof.
  induction l1 as [|ev l1 IH]; [reflexivity|].
  destruct ev as [p|f|p| |[] s|[] s], st; simpl; rewrite ?IH;
    try reflexivity; now rewrite StrFacts.append_assoc.
Qed.

Lemma written_probes (st : stream) (l : list (event Path)) :
  forallb is_probe l = true -> written st l = EmptyString.
Proof.
  induction l as [|ev l IH]; [reflexivity|].
  destruct ev; simpl; try discriminate. exact IH.
Qed.

Lemma probed_app (l1 l2 : list (event Path)) : probed (l1 ++ l2) = probed l1 ++ probed l2.
Proof.
  induction l1 as [|ev l1 IH]; [reflexivity|].
  destruct ev; simpl; now rewrite ?IH.
Qed.

Lemma probed_map (ps : list Path) : probed (map (@EvProbe Path) ps) = ps.
Proof. induction ps as [|p ps IH]; simpl; [reflexivity | now rewrite IH]. Qed.

Lemma probes_map (ps : list Path) : forallb is_probe (map (@EvProbe Path) ps) = true.
Proof. induction ps as [|p ps IH]; simpl; [reflexivity | exact IH]. Qed.

End MonadFacts.

(** ** Candidate directories and the resolver *)

Section ResolverFacts.

Context {PL : Pathlib}.
Variable w : World.

(** [candidate_dirs] in closed form: the three guarded lookups never
    raise, the working directory does when [Path.cwd()] does. *)
Lemma candidate_dirs_eq :
  candidate_dirs w =
  match getcwd w with
  | inr c => ([], Ret (append_if_new c (bundled_dirs w)))
  | inl e => ([], Raise e)
  end.
Proof.
  unfold candidate_dirs, bundled_dirs, bundle_dir, launch_dirs, script_dirs.
  destruct (resolve w (Path_of (dunder_file w))) as [e1|p1];
    destruct (resolve w (Path_of (sys_argv0 w))) as [e2|p2];
    destruct (sys_meipass w) as [mp|]; try destruct (truthy mp);
    destruct (getcwd w) as [e|c]; reflexivity.
Qed.

Lemma candidate_dirs_cwd (c : Path) :
  getcwd w = inr c -> candidate_dirs w = ret (append_if_new c (bundled_dirs w)).
Proof. intros H. now rewrite candidate_dirs_eq, H. Qed.

Lemma mem_true (d : Path) (dirs : list Path) : mem d dirs = true <-> In d dirs.
Proof. unfold mem. destruct (in_dec Path_eq_dec d dirs); split; congruence. Qed.

Lemma in_append_if_new (c : Path) (dirs : list Path) : In c (append_if_new c dirs).
Proof.
  unfold append_if_new. destruct (mem c dirs) eqn:E.
  - now apply mem_true.
  - apply in_or_app. right. now left.
Qed.

Lemma probe_eq (p : Path) : probe w p = ([EvProbe p], Ret (path_exists w p)).
Proof. reflexivity. Qed.

(** A first-match loop probes up to the first existing path and returns it. *)
Lemma find_in_dir_eq (d : Path) (names : list string) :
  find_in_dir w d names =
  (map (@EvProbe Path) (probed_until w (map (fun n => joinpath d n) names)),
   Ret (first_existing w (map (fun n => joinpath d n) names))).
Proof.
  induction names as [|n names IH]; [reflexivity|].
  cbn [find_in_dir]. rewrite probe_eq, bind_ret.
  unfold first_existing. cbn [map probed_until find].
  destruct (path_exists w (joinpath d n)); [reflexivity|].
  rewrite IH. reflexivity.
Qed.

Lemma probed_until_app_none (ps qs : list Path) :
  first_existing w ps = None ->
  probed_until w (ps ++ qs) = ps ++ probed_until w qs.
Proof.
  unfold first_existing. induction ps as [|p ps IH]; [reflexivity|].
  simpl. destruct (path_exists w p); [discriminate|].
  intros H. now rewrite IH.
Qed.

Lemma probed_until_app_some (ps qs : list Path) (p : Path) :
  first_existing w ps = Some p ->
  probed_until w (ps ++ qs) = probed_until w ps.
Proof.
  unfold first_existing. induction ps as [|q ps IH]; [discriminate|].
  simpl. destruct (path_exists w q); [reflexivity|].
  intros H. now rewrite IH.
Qed.

Lemma probed_until_none (ps : list Path) :
  first_existing w ps = None -> probed_until w ps = ps.
Proof.
  intros H. rewrite <- (app_nil_r ps) at 1.
  rewrite (probed_until_app_none ps [] H). apply app_nil_r.
Qed.

Lemma first_existing_app (ps qs : list Path) :
  first_existing w (ps ++ qs) =
  match first_existing w ps with
  | Some p => Some p
  | None => first_existing w qs
  end.
Proof.
  unfold first_existing. induction ps as [|p ps IH]; [reflexivity|].
  simpl. destruct (path_exists w p); [reflexivity | exact IH].
Qed.

Lemma first_existing_none (ps : list Path) :
  first_existing w ps = None <-> forall p, In p ps -> path_exists w p = false.
Proof.
  unfold first_existing. split.
  - intros H p Hp. exact (find_none _ _ H p Hp).
  - induction ps as [|p ps IH]; [reflexivity|].
    intros H. simpl. rewrite (H p (or_introl eq_refl)).
    apply IH. intros q Hq. apply H. now right.
Qed.

Lemma first_existing_some (ps : list Path) (p : Path) :
  first_existing w ps = Some p -> In p ps /\ path_exists w p = true.
Proof. apply find_some. Qed.

Lemma find_in_dirs_eq (dirs : list Path) :
  find_in_dirs w dirs candidates =
  (map (@EvProbe Path) (probed_until w (default_paths dirs)),
   Ret (first_existing w (default_paths dirs))).
Proof.
  induction dirs as [|d dirs IH]; [reflexivity|].
  cbn [find_in_dirs]. rewrite find_in_dir_eq, bind_ret.
  change (default_paths (d :: dirs))
    with (map (fun n => joinpath d n) candidates ++ default_paths dirs).
  rewrite first_existing_app.
  destruct (first_existing w (map (fun n => joinpath d n) candidates)) as [p|] eqn:E.
  - rewrite (probed_until_app_some _ _ E).
    unfold log_of, result_of, ret. cbn [fst snd]. now rewrite app_nil_r.
  - rewrite (probed_until_none _ E), (probed_until_app_none _ _ E), IH.
    unfold log_of, result_of. cbn [fst snd]. now rewrite map_app.
Qed.

Lemma try_bases_eq (s : string) (bases : list Path) (tried : list string) :
  try_bases w s bases tried =
  (map (@EvProbe Path) (probed_until w (joined_paths s bases)),
   Ret (first_existing w (joined_paths s bases),
        tried ++ map str (probed_until w (joined_paths s bases)))).
Proof.
  revert tried. induction bases as [|b bases IH]; intros tried.
  - simpl. now rewrite app_nil_r.
  - cbn [try_bases]. rewrite probe_eq, bind_ret.
    unfold first_existing, joined_paths. cbn [map probed_until find].
    destruct (path_exists w (joinpath b s)); [reflexivity|].
    rewrite IH. unfold log_of, result_of, first_existing, joined_paths. simpl.
    rewrite <- ?app_assoc; reflexivity.
Qed.

Lemma str_default_paths (dirs : list Path) :
  flat_map (fun d => map (fun name => str (joinpath d name)) candidates) dirs =
  map str (default_paths dirs).
Proof.
  unfold default_paths. induction dirs as [|d dirs IH]; [reflexivity|].
  cbn [flat_map]. now rewrite map_app, map_map, IH.
Qed.

(** The default flow in closed form. *)
Lemma default_flow_eq (c : Path) (tried : list string) :
  getcwd w = inr c ->
  default_flow w tried =
  (map (@EvProbe Path) (probed_until w (default_paths (dirs_with_cwd w c))),
   Ret match first_existing w (default_paths (dirs_with_cwd w c)) with
       | Some f => (f, [str f])
       | None =>
           (Path_of "model/RF_binary_v1.pickle",
            tried ++ map str (default_paths (dirs_with_cwd w c)))
       end).
Proof.
  intros Hc. unfold default_flow, find_model_file.
  rewrite (candidate_dirs_cwd Hc), !bind_ret_nil, find_in_dirs_eq, bind_ret.
  fold (dirs_with_cwd w c).
  destruct (first_existing w (default_paths (dirs_with_cwd w c))) as [f|].
  - unfold log_of, result_of, ret. cbn [fst snd]. now rewrite app_nil_r.
  - rewrite str_default_paths.
    unfold log_of, result_of, ret. cbn [fst snd hd candidates]. now rewrite app_nil_r.
Qed.

Lemma default_flow_no_cwd (e : exn) (tried : list string) :
  getcwd w = inl e -> default_flow w tried = ([], Raise e).
Proof.
  intros He. unfold default_flow, find_model_file.
  now rewrite candidate_dirs_eq, He.
Qed.

(** The resolver on an explicit, non-empty path, in closed form. *)
Lemma prepare_explicit_eq (c : Path) (s : string) :
  getcwd w = inr c -> truthy s = true ->
  prepare_model_path w (Some s) =
  match first_existing w (explicit_paths s (dirs_with_cwd w c)) with
  | Some q =>
      (map (@EvProbe Path) (probed_until w (explicit_paths s (dirs_with_cwd w c))),
       Ret (q, map str (probed_until w (explicit_paths s (dirs_with_cwd w c)))))
  | None =>
      (map (@EvProbe Path) (explicit_paths s (dirs_with_cwd w c))
         ++ log_of (default_flow w (map str (explicit_paths s (dirs_with_cwd w c)))),
       result_of (default_flow w (map str (explicit_paths s (dirs_with_cwd w c)))))
  end.
Proof.
  intros Hc Hs. unfold prepare_model_path. rewrite Hs, probe_eq, bind_ret.
  unfold explicit_paths, first_existing. cbn [find probed_until map].
  destruct (path_exists w (Path_of s)) eqn:E; [reflexivity|].
  rewrite (candidate_dirs_cwd Hc), bind_ret_nil, try_bases_eq, bind_ret.
  fold (dirs_with_cwd w c). fold (first_existing w (joined_paths s (dirs_with_cwd w c))).
  destruct (first_existing w (joined_paths s (dirs_with_cwd w c))) as [q|] eqn:F.
  - unfold log_of, result_of, ret. cbn [fst snd app map]. now rewrite app_nil_r.
  - rewrite (probed_until_none _ F).
    unfold log_of, result_of. cbn [fst snd app map]. reflexivity.
Qed.

Lemma prepare_default_eq (cli_model : option string) :
  match cli_model with Some s => truthy s = false | None => True end ->
  prepare_model_path w cli_model = default_flow w [].
Proof.
  destruct cli_model as [s|]; [|reflexivity].
  intros Hs. unfold prepare_model_path. now rewrite Hs.
Qed.

(** With the working directory available the resolver returns a pair, and
    its log holds probes only. *)
Lemma prepare_model_path_returns (c : Path) (cli_model : option string) :
  getcwd w = inr c ->
  exists log p tried,
    prepare_model_path w cli_model = (log, Ret (p, tried)) /\
    forallb is_probe log = true.
Proof.
  intros Hc.
  assert (D : forall tried, exists log p tried',
             default_flow w tried = (log, Ret (p, tried')) /\
             forallb is_probe log = true).
  { intros tried. rewrite (default_flow_eq tried Hc).
    destruct (first_existing w (default_paths (dirs_with_cwd w c))) as [f|];
      eexists _, _, _; (split; [reflexivity | apply probes_map]). }
  destruct cli_model as [s|]; [destruct (truthy s) eqn:Hs|].
  - rewrite (prepare_explicit_eq s Hc Hs).
    destruct (first_existing w (explicit_paths s (dirs_with_cwd w c))) as [q|].
    + eexists _, _, _. split; [reflexivity | apply probes_map].
    + destruct (D (map str (explicit_paths s (dirs_with_cwd w c))))
        as [log [p [tried' [E P]]]].
      rewrite E. eexists _, _, _. split; [reflexivity|].
      unfold log_of. cbn [fst]. now rewrite forallb_app, probes_map, P.
  - rewrite (prepare_default_eq (Some s)) by exact Hs. apply D.
  - rewrite (prepare_default_eq None) by exact I. apply D.
Qed.

(** In every world the resolver's log holds probes only and the resolver
    does not leave through [SystemExit]. *)
Lemma prepare_model_path_quiet (cli_model : option string) :
  forallb is_probe (log_of (prepare_model_path w cli_model)) = true /\
  forall code, result_of (prepare_model_path w cli_model) <> Exit code.
Proof.
  destruct (getcwd w) as [e|c] eqn:Hc.
  - assert (D : forall tried, default_flow w tried = ([], Raise e))
      by (intros; now apply default_flow_no_cwd).
    destruct cli_model as [s|]; [destruct (truthy s) eqn:Hs|].
    + unfold prepare_model_path. rewrite Hs, probe_eq, bind_ret.
      destruct (path_exists w (Path_of s)).
      * split; [reflexivity | discriminate].
      * rewrite candidate_dirs_eq, Hc. split; [reflexivity | discriminate].
    + rewrite (prepare_default_eq (Some s)) by exact Hs. rewrite D.
      split; [reflexivity | discriminate].
    + rewrite (prepare_default_eq None) by exact I. rewrite D.
      split; [reflexivity | discriminate].
  - destruct (prepare_model_path_returns cli_model Hc) as [log [p [tried [E P]]]].
    rewrite E. split; [exact P | discriminate].
Qed.

End ResolverFacts.

(** ** The entry point *)

Ltac py_run :=
  cbn [bind lift ret raise emit try_except fst snd log_of result_of app negb
       sys_exit probe load_model_from_path first_pred parse_args main_handler].

Section MainFacts.

Context {PL : Pathlib}.
Variable w : World.

Lemma shown_probes (l : list (event Path)) :
  forallb is_probe l = true -> filter shown l = [].
Proof.
  induction l as [|ev l IH]; [reflexivity|].
  destruct ev; simpl; try discriminate. exact IH.
Qed.

Lemma written_shown (st : stream) (l : list (event Path)) :
  written st (filter shown l) = written st l.
Proof.
  induction l as [|ev l IH]; [reflexivity|].
  destruct ev as [p|f|p| |[] s|[] s], st; simpl; now rewrite ?IH.
Qed.

Lemma in_write_shown (st : stream) (s : string) (l : list (event Path)) :
  In (EvWrite st s) l -> In (EvWrite st s) (filter shown l).
Proof. intros H. apply filter_In. now split. Qed.

Lemma model_work_probes (l : list (event Path)) :
  forallb is_probe l = true -> existsb is_model_work l = false.
Proof.
  induction l as [|ev l IH]; [reflexivity|].
  destruct ev; simpl; try discriminate. exact IH.
Qed.

Lemma success_line_eq (label : string) :
  label = "BPA" \/ label = "UPA" ->
  Json.dumps (success_obj label) +++ Str.newline = success_line label.
Proof. intros [-> | ->]; reflexivity. Qed.

Ltac sift QS :=
  repeat (progress cbn [filter shown app] || rewrite filter_app || rewrite QS).

Ltac failure QS := eapply RunFailure; py_run; sift QS; reflexivity.

(** Every run of [main] has one of the four shapes. *)
Lemma main_shape : run_shape w (main w).
Proof.
  unfold main, main_body, parse_args.
  destruct (argparse w (sys_args w)) as [args|t|t]; py_run;
    [|apply RunUsage|apply RunHelp].
  destruct (prepare_model_path_quiet w (ns_model args)) as [Q NX].
  destruct (prepare_model_path w (ns_model args)) as [plog r].
  unfold log_of, result_of in Q, NX. cbn [fst snd] in Q, NX.
  pose proof (shown_probes _ Q) as QS.
  destruct (path_exists w (Path_of (ns_csv args))); py_run; [|failure QS].
  destruct r as [[p tried]|e|c]; py_run; [|failure QS|now destruct (NX c)].
  destruct (read_csv w (str (Path_of (ns_csv args)))) as [e|df]; py_run; [failure QS|].
  destruct (Nat.eqb (shape0 (dropna df)) 0); py_run; [failure QS|].
  destruct (path_exists w p); py_run; [|failure QS].
  destruct (pickle_load w p) as [e|model]; py_run; [failure QS|].
  destruct (predict model (dropna df)) as [e|[|code rest]]; py_run;
    [failure QS|failure QS|].
  unfold mapping.
  destruct (Z.eqb code 0); py_run; [|destruct (Z.eqb code 1); py_run; [|failure QS]].
  - eapply RunSuccess with (label := "BPA"); [|now left]. sift QS. reflexivity.
  - eapply RunSuccess with (label := "UPA"); [|now right]. sift QS. reflexivity.
Qed.

End MainFacts.

(** ** Runs of the entry point *)

Unset Implicit Arguments.

Section Runs.

Context {PL : Pathlib}.
Variable w : World.

Ltac sift QS :=
  repeat (progress cbn [filter shown app] || rewrite filter_app || rewrite QS).

Lemma resolver_log_probes (m : option string) (plog : list (event Path))
      (r : outcome (Path * list string)) :
  prepare_model_path w m = (plog, r) -> forallb is_probe plog = true.
Proof.
  intros H. destruct (prepare_model_path_quiet w m) as [Q _].
  now rewrite H in Q.
Qed.

Lemma load_ok_inv (p : Path) (llog : list (event Path)) (model : Model) :
  load_model_from_path w p = (llog, Ret model) ->
  path_exists w p = true /\ pickle_load w p = inr model /\
  llog = [EvProbe p; EvOpenModel p].
Proof.
  unfold load_model_from_path. py_run.
  destruct (path_exists w p); py_run; [|discriminate].
  destruct (pickle_load w p) as [e|m]; py_run; [discriminate|].
  intros H. inversion H. auto.
Qed.


Lemma main_resolution_raises (args : Namespace) (plog : list (event Path)) (e : exn) :
  argparse w (sys_args w) = Parsed args ->
  path_exists w (Path_of (ns_csv args)) = true ->
  prepare_model_path w (ns_model args) = (plog, Raise e) ->
  main w =
  (EvProbe (Path_of (ns_csv args)) :: plog ++ [EvWrite Stderr (error_line w e)], Exit 2).
Proof.
  intros HP HC HR. unfold main, main_body, parse_args.
  rewrite HP. py_run. rewrite HC. py_run. rewrite HR. py_run. reflexivity.
Qed.

Lemma main_success_eq (args : Namespace) (plog : list (event Path)) (p : Path)
      (tried : list string) (df : DataFrame) (model : Model) (code : Z) (rest : list Z) :
  argparse w (sys_args w) = Parsed args ->
  path_exists w (Path_of (ns_csv args)) = true ->
  prepare_model_path w (ns_model args) = (plog, Ret (p, tried)) ->
  read_csv w (str (Path_of (ns_csv args))) = inr df ->
  0 < shape0 (dropna df) ->
  path_exists w p = true ->
  pickle_load w p = inr model ->
  predict model (dropna df) = inr (code :: rest) ->
  (code = 0 \/ code = 1)%Z ->
  main w =
  (EvProbe (Path_of (ns_csv args)) :: plog
     ++ [EvReadCsv (str (Path_of (ns_csv args))); EvProbe p; EvOpenModel p; EvPredict;
         EvWrite Stdout (success_line (label_of code))],
   Exit 0).
Proof.
  intros HP HC HR HD HS HE HL HM Hcode. unfold main, main_body, parse_args.
  rewrite HP. py_run. rewrite HC. py_run. rewrite HR. py_run. rewrite HD. py_run.
  destruct (Nat.eqb_spec (shape0 (dropna df)) 0) as [Z0|_]; [lia|]. py_run.
  rewrite HE. py_run. rewrite HL. py_run. rewrite HM. py_run.
  unfold mapping, label_of.
  destruct Hcode as [-> | ->]; cbn [Z.eqb]; py_run; rewrite <- ?app_assoc; reflexivity.
Qed.

(** The run whose model fails to load. *)
Lemma main_load_fails_eq (args : Namespace) (plog : list (event Path)) (p : Path)
      (tried : list string) (df : DataFrame) :
  argparse w (sys_args w) = Parsed args ->
  path_exists w (Path_of (ns_csv args)) = true ->
  prepare_model_path w (ns_model args) = (plog, Ret (p, tried)) ->
  read_csv w (str (Path_of (ns_csv args))) = inr df ->
  0 < shape0 (dropna df) ->
  path_exists w p = false ->
  main w =
  (EvProbe (Path_of (ns_csv args)) :: plog
     ++ [EvReadCsv (str (Path_of (ns_csv args))); EvProbe p;
         EvWrite Stderr (error_line w (load_failed w tried (model_missing p)))],
   Exit 2).
Proof.
  intros HP HC HR HD HS HE. unfold main, main_body, parse_args.
  rewrite HP. py_run. rewrite HC. py_run. rewrite HR. py_run. rewrite HD. py_run.
  destruct (Nat.eqb_spec (shape0 (dropna df)) 0) as [Z0|_]; [lia|]. py_run.
  rewrite HE. py_run. rewrite <- ?app_assoc; reflexivity.
Qed.

End Runs.

(** * The claims *)

(** C8: when the argument parser rejects the command line (a missing
    positional, an unknown option), [main] exits with the parser's code 2
    before any of its own logic runs: the log holds the parser's usage
    text on stderr and nothing else, [main] writes no envelope to either
    stream, and the [except Exception] handler is not entered. *)
Theorem argparse_failure_bypasses_envelope {PL : Pathlib} (w : World) (text : string) :
  argparse w (sys_args w) = ParseError text ->
  main w = ([EvArgparse Stderr text], Exit 2) /\
  exit_status (result_of (main w)) <> 0%Z /\
  filter is_write (log_of (main w)) = [] /\
  written Stdout (log_of (main w)) = EmptyString /\
  written Stderr (log_of (main w)) = text.
Proof.
  intros H.
  assert (E : main w = ([EvArgparse Stderr text], Exit 2)).
  { unfold main, main_body, parse_args. rewrite H. reflexivity. }
  rewrite E. cbn. rewrite StrFacts.append_nil_r. repeat split. discriminate.
Qed.

Lemma argparse_failure_witness :
  let w := Example.world (Example.with_args Example.base []) in
  let text := Example.usage +++ "run.py: error: the following arguments are required: csv"
              +++ Str.newline in
  argparse w (sys_args w) = ParseError text /\
  main w = ([EvArgparse Stderr text], Exit 2) /\
  exit_status (result_of (main w)) <> 0%Z /\
  filter is_write (log_of (main w)) = [] /\
  written Stdout (log_of (main w)) = EmptyString /\
  written Stderr (log_of (main w)) = text.
Proof.
  cbv zeta. split; [reflexivity|].
  apply argparse_failure_bypasses_envelope. reflexivity.
Defined.

(** C2, as the code has it: when the CSV path does not name an existing
    file, [main] probes it, writes nothing to stdout, writes to stderr the
    one-line error envelope of a [FileNotFoundError] and exits with code 2.
    The [error] field ends with [str(Path(csv))], the string form pathlib
    gives the path; it holds the argument literally whenever that string
    form is the argument itself. *)
Theorem csv_not_found_envelope {PL : Pathlib} (w : World) (args : Namespace) :
  argparse w (sys_args w) = Parsed args ->
  path_exists w (Path_of (ns_csv args)) = false ->
  let e := csv_not_found (ns_csv args) in
  main w = ([EvProbe (Path_of (ns_csv args)); EvWrite Stderr (error_line w e)], Exit 2) /\
  exit_status (result_of (main w)) = 2%Z /\
  written Stdout (log_of (main w)) = EmptyString /\
  written Stderr (log_of (main w)) = error_line w e /\
  single_line (error_line w e) /\
  Json.get "error" (error_obj w e) = Some (JStr (exc_str e)) /\
  Str.infix_of (str (Path_of (ns_csv args))) (exc_str e) /\
  (str (Path_of (ns_csv args)) = ns_csv args -> Str.infix_of (ns_csv args) (exc_str e)).
Proof.
  intros HP HC e.
  assert (E : main w =
              ([EvProbe (Path_of (ns_csv args)); EvWrite Stderr (error_line w e)], Exit 2)).
  { unfold main, main_body, parse_args. rewrite HP. py_run. rewrite HC. reflexivity. }
  assert (I : Str.infix_of (str (Path_of (ns_csv args))) (exc_str e))
    by apply StrFacts.infix_of_suffix.
  rewrite E. cbn [log_of result_of fst snd exit_status written].
  rewrite StrFacts.append_nil_r.
  repeat split; try assumption.
  - apply JsonFacts.dumps_single_line.
  - intros <-. exact I.
Qed.

Lemma csv_not_found_witness :
  let w := Example.world (Example.with_args Example.base ["/data/absent.csv"]) in
  let e := @csv_not_found PosixPath "/data/absent.csv" in
  exit_status (result_of (main w)) = 2%Z /\
  written Stdout (log_of (main w)) = EmptyString /\
  written Stderr (log_of (main w)) = error_line w e /\
  Str.infix_of "/data/absent.csv" (exc_str e).
Proof.
  cbv zeta.
  destruct (@csv_not_found_envelope PosixPath
              (Example.world (Example.with_args Example.base ["/data/absent.csv"]))
              {| ns_csv := "/data/absent.csv"; ns_model := None |}
              eq_refl eq_refl)
    as [_ [H1 [H2 [H3 [_ [_ [_ H4]]]]]]].
  split; [exact H1|]. split; [exact H2|]. split; [exact H3|].
  apply H4. reflexivity.
Defined.

(** C2 as stated fails: for the argument [./nope.csv], which names no
    file, the [error] field is the message for [nope.csv], the string form
    pathlib gives the path, and does not hold the argument. *)
Lemma csv_literal_path_counterexample :
  let w := Example.world (Example.with_args Example.base ["./nope.csv"]) in
  argparse w (sys_args w) = Parsed {| ns_csv := "./nope.csv"; ns_model := None |} /\
  path_exists w (Path_of "./nope.csv") = false /\
  exists e,
    main w = ([EvProbe (Path_of "./nope.csv"); EvWrite Stderr (error_line w e)], Exit 2) /\
    Json.get "error" (error_obj w e) = Some (JStr "输入 CSV 未找到: nope.csv") /\
    ~ Str.infix_of "./nope.csv" "输入 CSV 未找到: nope.csv".
Proof.
  cbv zeta. split; [reflexivity|]. split; [reflexivity|].
  exists (@csv_not_found PosixPath "./nope.csv").
  split; [reflexivity|]. split; [reflexivity|].
  intros H. apply StrFacts.infixb_spec in H. vm_compute in H. discriminate.
Qed.

(** C1: when the CSV exists, at least one row survives [dropna], the
    model loads from the resolved path and its first class code is 0 or 1,
    [main] exits with code 0, writes nothing to stderr and writes to
    stdout exactly one line, the success envelope whose [results] is
    [BPA] for code 0 and [UPA] for code 1. *)
Theorem main_success_envelope {PL : Pathlib} (w : World) (args : Namespace)
        (plog llog : list (event Path)) (p : Path) (tried : list string)
        (df : DataFrame) (model : Model) (code : Z) (rest : list Z) :
  argparse w (sys_args w) = Parsed args ->
  path_exists w (Path_of (ns_csv args)) = true ->
  prepare_model_path w (ns_model args) = (plog, Ret (p, tried)) ->
  read_csv w (str (Path_of (ns_csv args))) = inr df ->
  0 < shape0 (dropna df) ->
  load_model_from_path w p = (llog, Ret model) ->
  predict model (dropna df) = inr (code :: rest) ->
  (code = 0 \/ code = 1)%Z ->
  exit_status (result_of (main w)) = 0%Z /\
  written Stdout (log_of (main w)) = success_line (label_of code) /\
  written Stderr (log_of (main w)) = EmptyString /\
  filter shown (log_of (main w)) = [EvWrite Stdout (success_line (label_of code))] /\
  success_line (label_of code) = Json.dumps (success_obj (label_of code)) +++ Str.newline /\
  single_line (success_line (label_of code)) /\
  (code = 0%Z -> label_of code = "BPA") /\
  (code = 1%Z -> label_of code = "UPA").
Proof.
  intros HP HC HR HD HS HL HM Hcode.
  destruct (load_ok_inv w p llog model HL) as [HE [HK _]].
  pose proof (shown_probes _ (resolver_log_probes w _ _ _ HR)) as QS.
  pose proof (main_success_eq w args plog p tried df model code rest HP HC HR HD HS HE HK HM Hcode) as E.
  assert (L : label_of code = "BPA" \/ label_of code = "UPA")
    by (destruct Hcode as [-> | ->]; [now left | now right]).
  assert (F : filter shown (log_of (main w))
              = [EvWrite Stdout (success_line (label_of code))]).
  { rewrite E. unfold log_of. cbn [fst filter shown].
    rewrite filter_app, QS. reflexivity. }
  split; [now rewrite E|].
  split; [rewrite <- written_shown, F; cbn [written]; apply StrFacts.append_nil_r|].
  split; [rewrite <- written_shown, F; reflexivity|].
  split; [exact F|].
  split; [symmetry; now apply success_line_eq|].
  split; [rewrite <- (success_line_eq L); apply JsonFacts.dumps_single_line|].
  split; intros ->; reflexivity.
Qed.

Lemma main_success_witness :
  let w := Example.world Example.base in
  exit_status (result_of (main w)) = 0%Z /\
  written Stdout (log_of (main w)) = success_line "UPA" /\
  written Stderr (log_of (main w)) = EmptyString.
Proof.
  cbv zeta.
  destruct (@main_success_envelope PosixPath (Example.world Example.base)
              {| ns_csv := "/data/in.csv"; ns_model := None |}
              [EvProbe (Path_of "/app/model/RF_binary_v1.pickle")]
              [EvProbe (Path_of "/app/model/RF_binary_v1.pickle");
               EvOpenModel (Path_of "/app/model/RF_binary_v1.pickle")]
              (Path_of "/app/model/RF_binary_v1.pickle")
              ["/app/model/RF_binary_v1.pickle"]
              (Example.table Example.good_rows)
              (Example.constant_model 1) 1%Z []
              eq_refl eq_refl eq_refl eq_refl (le_n 1) eq_refl eq_refl
              (or_intror eq_refl))
    as [H1 [H2 [H3 _]]].
  split; [exact H1|]. split; [exact H2 | exact H3].
Defined.




(** C9: in every run the streams are not mixed.  When [main] writes to
    stdout, the run exits with code 0, stdout holds exactly that line,
    the success envelope, and stderr holds nothing; when [main] writes
    to stderr, the run exits with code 2, stderr holds exactly that line,
    an error envelope, and stdout holds nothing; and no run leaves text
    on both streams. *)
Theorem streams_never_mixed {PL : Pathlib} (w : World) :
  let log := log_of (main w) in
  let code := exit_status (result_of (main w)) in
  (forall s, In (EvWrite Stdout s) log ->
     code = 0%Z /\ written Stdout log = s /\ written Stderr log = EmptyString /\
     exists label, (label = "BPA" \/ label = "UPA") /\ s = success_line label) /\
  (forall s, In (EvWrite Stderr s) log ->
     code = 2%Z /\ written Stderr log = s /\ written Stdout log = EmptyString /\
     exists e, s = error_line w e) /\
  (written Stdout log = EmptyString \/ written Stderr log = EmptyString).
Proof.
  cbv zeta. pose proof (main_shape w) as S.
  destruct (main w) as [log r]. unfold log_of, result_of. cbn [fst snd].
  inversion S as [l label F L|l e F|text|text]; subst.
  - split; [|split].
    + intros s Hs. apply in_write_shown in Hs. rewrite F in Hs.
      destruct Hs as [Hs|[]]. inversion Hs; subst s.
      split; [reflexivity|].
      split; [rewrite <- written_shown, F; cbn [written]; apply StrFacts.append_nil_r|].
      split; [rewrite <- written_shown, F; reflexivity|].
      now exists label.
    + intros s Hs. apply in_write_shown in Hs. rewrite F in Hs.
      destruct Hs as [Hs|[]]. discriminate.
    + right. rewrite <- written_shown, F. reflexivity.
  - split; [|split].
    + intros s Hs. apply in_write_shown in Hs. rewrite F in Hs.
      destruct Hs as [Hs|[]]. discriminate.
    + intros s Hs. apply in_write_shown in Hs. rewrite F in Hs.
      destruct Hs as [Hs|[]]. inversion Hs; subst s.
      split; [reflexivity|].
      split; [rewrite <- written_shown, F; cbn [written]; apply StrFacts.append_nil_r|].
      split; [rewrite <- written_shown, F; reflexivity|].
      now exists e.
    + left. rewrite <- written_shown, F. reflexivity.
  - split; [|split].
    + intros s [Hs|[]]. discriminate.
    + intros s [Hs|[]]. discriminate.
    + left. reflexivity.
  - split; [|split].
    + intros s [Hs|[]]. discriminate.
    + intros s [Hs|[]]. discriminate.
    + right. reflexivity.
Qed.


(** C6, at a failing input: the script and a default model sit under
    [/app], but the working directory has been removed, so [Path.cwd()]
    on line 35, outside every [try], raises and the resolver raises with
    it instead of returning a pair. *)
Theorem resolver_raises_without_cwd :
  let w := Example.world (Example.with_workdir Example.base None) in
  script_dirs w = [Path_of "/app"] /\
  path_exists w (joinpath (Path_of "/app") "model/RF_binary_v1.pickle") = true /\
  getcwd w = inl Example.enoent /\
  candidate_dirs w = ([], Raise Example.enoent) /\
  prepare_model_path w None = ([], Raise Example.enoent) /\
  prepare_model_path w (Some "missing.pickle")
  = ([EvProbe (Path_of "missing.pickle")], Raise Example.enoent).
Proof. cbv zeta. repeat split. Qed.

(** C7 as stated fails: with [--model x.pkl], which exists nowhere, and a
    default model under the script directory, the resolver probes
    [x.pkl], [/app/x.pkl] and [/work/x.pkl], then finds the default and
    returns a list that holds the found path only. *)
Lemma tried_list_default_hit_counterexample :
  let w := Example.world Example.base in
  prepare_model_path w (Some "x.pkl")
  = ([EvProbe (Path_of "x.pkl"); EvProbe (Path_of "/app/x.pkl");
      EvProbe (Path_of "/work/x.pkl");
      EvProbe (Path_of "/app/model/RF_binary_v1.pickle")],
     Ret (Path_of "/app/model/RF_binary_v1.pickle", ["/app/model/RF_binary_v1.pickle"])) /\
  ~ In (str (Path_of "x.pkl")) ["/app/model/RF_binary_v1.pickle"] /\
  ~ In (str (Path_of "/app/x.pkl")) ["/app/model/RF_binary_v1.pickle"].
Proof.
  cbv zeta. split; [reflexivity|].
  split; intros [H|[]]; vm_compute in H; discriminate.
Qed.

(** The three outcomes of the resolver on an explicit path, in the model
    where every probe answers. *)
Lemma explicit_resolution_closed_form {PL : Pathlib} (w : World) (c : Path) (s : string) :
  getcwd w = inr c ->
  truthy s = true ->
  let dirs := dirs_with_cwd w c in
  exists log p tried,
    prepare_model_path w (Some s) = (log, Ret (p, tried)) /\
    (first_existing w (explicit_paths s dirs) <> None \/
     first_existing w (default_paths dirs) = None ->
     tried = map str (probed log) /\
     forall q, In (EvProbe q) log -> In (str q) tried) /\
    (first_existing w (explicit_paths s dirs) = None ->
     forall f, first_existing w (default_paths dirs) = Some f ->
       p = f /\ tried = [str f] /\
       probed log = explicit_paths s dirs ++ probed_until w (default_paths dirs)).
Proof.
  intros Hc Hs dirs.
  assert (P : forall log : list (event Path), forall tried,
             tried = map str (probed log) ->
             forall q, In (EvProbe q) log -> In (str q) tried).
  { intros log tried -> q Hq. apply in_map.
    clear -Hq. induction log as [|ev log IH]; [destruct Hq|].
    destruct Hq as [-> | Hq]; [now left|].
    destruct ev; simpl; auto. }
  rewrite (prepare_explicit_eq w s Hc Hs). fold dirs.
  destruct (first_existing w (explicit_paths s dirs)) as [q|] eqn:E.
  - eexists _, _, _. split; [reflexivity|]. split.
    + intros _. assert (T : map str (probed_until w (explicit_paths s dirs))
                          = map str (probed (map (@EvProbe Path)
                                               (probed_until w (explicit_paths s dirs)))))
        by now rewrite probed_map.
      split; [exact T | exact (P _ _ T)].
    + discriminate.
  - rewrite (default_flow_eq w _ Hc). fold dirs. unfold log_of, result_of. cbn [fst snd].
    destruct (first_existing w (default_paths dirs)) as [f|] eqn:D.
    + eexists _, _, _. split; [reflexivity|]. split.
      * intros [H|H]; [now destruct H | discriminate].
      * intros _ f' Hf. inversion Hf; subst f'.
        split; [reflexivity|]. split; [reflexivity|].
        now rewrite probed_app, !probed_map.
    + eexists _, _, _. split; [reflexivity|]. split.
      * intros _.
        assert (T : map str (explicit_paths s dirs) ++ map str (default_paths dirs)
                    = map str (probed (map (@EvProbe Path) (explicit_paths s dirs)
                                         ++ map (@EvProbe Path)
                                              (probed_until w (default_paths dirs))))).
        { rewrite probed_app, !probed_map, (probed_until_none w _ D).
          now rewrite map_app. }
        split; [exact T | exact (P _ _ T)].
      * intros _ f Hf. discriminate.
Qed.

(** C7, as the code has it: whenever the resolver returns for an explicit,
    non-empty model path, then, if one of the explicit attempts (the path
    as given, or joined to a candidate directory) exists, or no default
    name exists either, the returned list is exactly the string forms of
    the paths it probed, in order; and if no explicit attempt exists and
    the default search finds a file, the returned list holds that file
    only, although the explicit attempts were probed. *)
Theorem tried_list_records_attempts {PL : Pathlib} (w : World) (c : Path) (s : string)
        (log : list (event Path)) (p : Path) (tried : list string) :
  getcwd w = inr c ->
  truthy s = true ->
  prepare_model_path w (Some s) = (log, Ret (p, tried)) ->
  let dirs := dirs_with_cwd w c in
  (first_existing w (explicit_paths s dirs) <> None \/
   first_existing w (default_paths dirs) = None ->
   tried = map str (probed log) /\
   forall q, In (EvProbe q) log -> In (str q) tried) /\
  (first_existing w (explicit_paths s dirs) = None ->
   forall f, first_existing w (default_paths dirs) = Some f ->
     p = f /\ tried = [str f] /\
     probed log = explicit_paths s dirs ++ probed_until w (default_paths dirs)).
Proof.
  intros Hc Hs H dirs.
  destruct (explicit_resolution_closed_form w c s Hc Hs) as [log' [p' [tried' [E R]]]].
  rewrite E in H. inversion H; subst. exact R.
Qed.

Lemma tried_list_witness :
  let w := Example.world (Example.with_files Example.base ["/app/x.pkl"]) in
  let v := Example.world (Example.with_files Example.base []) in
  ["x.pkl"; "/app/x.pkl"]
  = map str (probed [EvProbe (Path_of "x.pkl"); EvProbe (Path_of "/app/x.pkl")]) /\
  forall q,
    In (EvProbe q)
       (map (@EvProbe Path)
            (explicit_paths "x.pkl" (dirs_with_cwd v (Path_of "/work"))
               ++ default_paths (dirs_with_cwd v (Path_of "/work")))) ->
    In (str q)
       ["x.pkl"; "/app/x.pkl"; "/work/x.pkl";
        "/app/model/RF_binary_v1.pickle"; "/app/RF_binary_v1.pickle";
        "/work/model/RF_binary_v1.pickle"; "/work/RF_binary_v1.pickle"].
Proof.
  cbv zeta. split.
  - destruct (@tried_list_records_attempts PosixPath
                (Example.world (Example.with_files Example.base ["/app/x.pkl"]))
                (Path_of "/work") "x.pkl"
                [EvProbe (Path_of "x.pkl"); EvProbe (Path_of "/app/x.pkl")]
                (Path_of "/app/x.pkl") ["x.pkl"; "/app/x.pkl"]
                eq_refl eq_refl eq_refl) as [H _].
    apply H. left. vm_compute. discriminate.
  - destruct (@tried_list_records_attempts PosixPath
                (Example.world (Example.with_files Example.base []))
                (Path_of "/work") "x.pkl"
                (map (@EvProbe Path)
                     (explicit_paths "x.pkl"
                        (dirs_with_cwd (Example.world (Example.with_files Example.base []))
                                       (Path_of "/work"))
                      ++ default_paths
                           (dirs_with_cwd (Example.world (Example.with_files Example.base []))
                                          (Path_of "/work"))))
                (Path_of "model/RF_binary_v1.pickle")
                ["x.pkl"; "/app/x.pkl"; "/work/x.pkl";
                 "/app/model/RF_binary_v1.pickle"; "/app/RF_binary_v1.pickle";
                 "/work/model/RF_binary_v1.pickle"; "/work/RF_binary_v1.pickle"]
                eq_refl eq_refl eq_refl) as [H _].
    apply H. right. reflexivity.
Defined.

Section Precedence.

Context {PL : Pathlib}.
Variable w : World.



Lemma probed_until_incl (ps : list Path) : incl (probed_until w ps) ps.
Proof.
  induction ps as [|p ps IH]; [apply incl_refl|].
  cbn [probed_until]. destruct (path_exists w p).
  - intros q [<- | []]. now left.
  - intros q [<- | Hq]; [now left | right; now apply IH].
Qed.


End Precedence.



(** The guard of line 30 at work: a bundle directory that is already in
    the list as the directory of [sys.argv[0]] stays behind the script's
    directory, and the script directory's file is the one returned. *)
Example bundle_dir_already_listed :
  let s := {| Example.files := ["/app/RF_binary_v1.pickle"; "/bundle/RF_binary_v1.pickle"];
              Example.workdir := Some "/work";
              Example.script := "/app/run.py";
              Example.argv0 := "/bundle/run";
              Example.args := ["/data/in.csv"];
              Example.meipass := Some "/bundle";
              Example.tables := [];
              Example.models := [] |} in
  let w := Example.world s in
  candidate_dirs w = ret [Path_of "/app"; Path_of "/bundle"; Path_of "/work"] /\
  result_of (prepare_model_path w None)
  = Ret (Path_of "/app/RF_binary_v1.pickle", ["/app/RF_binary_v1.pickle"]).
Proof. cbv zeta. split; reflexivity. Qed.

(** C4 as stated fails: with [--model x.pkl], which exists nowhere, no
    default model in any candidate directory, and a CSV whose rows all
    have a missing value, the resolver has attempted seven paths, but the
    run ends on the row check: the envelope carries
    [No rows after dropna()], which holds none of the attempted paths. *)
Lemma load_failure_paths_counterexample :
  let s := Example.with_files
             (Example.with_args Example.base ["/data/holes.csv"; "--model"; "x.pkl"])
             ["/data/holes.csv"] in
  let w := Example.world s in
  let dirs := dirs_with_cwd w (Path_of "/work") in
  first_existing w (explicit_paths "x.pkl" dirs) = None /\
  first_existing w (default_paths dirs) = None /\
  result_of (prepare_model_path w (Some "x.pkl"))
  = Ret (Path_of "model/RF_binary_v1.pickle",
         ["x.pkl"; "/app/x.pkl"; "/work/x.pkl";
          "/app/model/RF_binary_v1.pickle"; "/app/RF_binary_v1.pickle";
          "/work/model/RF_binary_v1.pickle"; "/work/RF_binary_v1.pickle"]) /\
  exit_status (result_of (main w)) = 2%Z /\
  written Stderr (log_of (main w)) = error_line w no_rows /\
  Json.get "error" (error_obj w no_rows) = Some (JStr "No rows after dropna()") /\
  ~ Str.infix_of "x.pkl" "No rows after dropna()".
Proof.
  cbv zeta. do 6 (split; [reflexivity|]).
  intros H. apply StrFacts.infixb_spec in H. vm_compute in H. discriminate.
Qed.

(** C4, as the code has it: when the CSV exists and keeps at least one
    complete row, the [--model] path exists neither as given nor under any
    candidate directory, and no default name exists in any candidate
    directory (the working directory among them, from which a relative
    name is looked up), the resolver returns the bare first default name with the
    string forms of all the paths it probed; [main] exits with code 2,
    writes nothing to stdout, and the message of the envelope on stderr
    is the load error, which holds the Python rendering of every attempted
    path, in a list that is not empty. *)
Theorem load_failure_lists_attempts {PL : Pathlib} (w : World) (args : Namespace)
        (s : string) (c : Path) (df : DataFrame) :
  argparse w (sys_args w) = Parsed args ->
  ns_model args = Some s ->
  truthy s = true ->
  path_exists w (Path_of (ns_csv args)) = true ->
  read_csv w (str (Path_of (ns_csv args))) = inr df ->
  0 < shape0 (dropna df) ->
  getcwd w = inr c ->
  cwd_relative w c ->
  first_existing w (explicit_paths s (dirs_with_cwd w c)) = None ->
  first_existing w (default_paths (dirs_with_cwd w c)) = None ->
  let attempts := explicit_paths s (dirs_with_cwd w c) ++ default_paths (dirs_with_cwd w c) in
  let tried := map str attempts in
  let e := load_failed w tried (model_missing (Path_of "model/RF_binary_v1.pickle")) in
  prepare_model_path w (Some s)
  = (map (@EvProbe Path) attempts, Ret (Path_of "model/RF_binary_v1.pickle", tried)) /\
  exit_status (result_of (main w)) = 2%Z /\
  written Stdout (log_of (main w)) = EmptyString /\
  written Stderr (log_of (main w)) = error_line w e /\
  Json.get "error" (error_obj w e) = Some (JStr (exc_str e)) /\
  tried <> [] /\
  (forall q, In q attempts -> Str.infix_of (py_repr w (str q)) (exc_str e)).
Proof.
  intros HP HM HT HC HD HS Hc HW HX HF attempts tried e.
  assert (R : prepare_model_path w (Some s)
              = (map (@EvProbe Path) attempts,
                 Ret (Path_of "model/RF_binary_v1.pickle", tried))).
  { rewrite (prepare_explicit_eq w s Hc HT), HX, (default_flow_eq w _ Hc), HF.
    unfold log_of, result_of. cbn [fst snd].
    rewrite (probed_until_none w _ HF).
    unfold tried, attempts. now rewrite !map_app. }
  assert (N : path_exists w (Path_of "model/RF_binary_v1.pickle") = false).
  { rewrite (HW "model/RF_binary_v1.pickle" (or_introl eq_refl)).
    apply (proj1 (first_existing_none w _) HF).
    unfold default_paths. apply in_flat_map. exists c.
    split; [apply in_append_if_new | now left]. }
  rewrite <- HM in R.
  pose proof (main_load_fails_eq w args _ _ _ df HP HC R HD HS N) as E.
  fold e in E.
  assert (Q : forallb is_probe (map (@EvProbe Path) attempts) = true)
    by apply probes_map.
  split; [now rewrite <- HM|].
  rewrite E. unfold log_of, result_of. cbn [fst snd exit_status written].
  rewrite !written_app, (written_probes Stdout _ Q), (written_probes Stderr _ Q).
  cbn [written String.append]. rewrite StrFacts.append_nil_r.
  split; [reflexivity|]. split; [reflexivity|]. split; [reflexivity|].
  split; [reflexivity|]. split.
  - unfold tried, attempts, explicit_paths. discriminate.
  - intros q Hq. unfold e, load_failed, py_list_repr. cbn [exc_str].
    eapply StrFacts.infix_of_trans;
      [apply (StrFacts.infix_of_join ", " (py_repr w (str q)) (map (py_repr w) tried))|].
    + apply in_map. unfold tried. now apply in_map.
    + exists ("无法加载模型: attempted paths: " +++ "["),
             ("]" +++ ". Exception: " +++ exc_str (model_missing (Path_of "model/RF_binary_v1.pickle"))).
      now rewrite !StrFacts.append_assoc.
Qed.

Lemma load_failure_witness :
  let s := Example.with_files
             (Example.with_args Example.base ["/data/in.csv"; "--model"; "x.pkl"])
             ["/data/in.csv"] in
  let w := Example.world s in
  exit_status (result_of (main w)) = 2%Z /\
  written Stdout (log_of (main w)) = EmptyString /\
  Str.infix_of "'/work/x.pkl'"
    (exc_str (load_failed w
                ["x.pkl"; "/app/x.pkl"; "/work/x.pkl";
                 "/app/model/RF_binary_v1.pickle"; "/app/RF_binary_v1.pickle";
                 "/work/model/RF_binary_v1.pickle"; "/work/RF_binary_v1.pickle"]
                (model_missing (Path_of "model/RF_binary_v1.pickle")))).
Proof.
  cbv zeta.
  destruct (@load_failure_lists_attempts PosixPath
              (Example.world
                 (Example.with_files
                    (Example.with_args Example.base ["/data/in.csv"; "--model"; "x.pkl"])
                    ["/data/in.csv"]))
              {| ns_csv := "/data/in.csv"; ns_model := Some "x.pkl" |}
              "x.pkl" (Path_of "/work") (Example.table Example.good_rows)
              eq_refl eq_refl eq_refl eq_refl eq_refl (le_n 1) eq_refl)
    as [_ [H1 [H2 [_ [_ [_ H3]]]]]].
  - intros name [<- | [<- | []]]; reflexivity.
  - reflexivity.
  - reflexivity.
  - split; [exact H1|]. split; [exact H2|].
    apply (H3 (Path_of "/work/x.pkl")). right. right. now left.
Defined.

(** C10: an empty [--model] string is falsy, so the explicit branch is
    skipped: the resolver does on it what it does without the flag, log
    and outcome alike.  Whenever it returns, the log is exactly the probes of the default search, the two default names under
    each candidate directory in order up to the first that exists, so the
    empty path is neither probed as given nor joined to a directory; and
    the returned list holds the found default alone, or every default
    candidate when none exists. *)
Theorem empty_model_flag_is_no_flag {PL : Pathlib} (w : World) :
  prepare_model_path w (Some EmptyString) = prepare_model_path w None /\
  forall log p tried,
    prepare_model_path w (Some EmptyString) = (log, Ret (p, tried)) ->
    exists c,
      getcwd w = inr c /\
      log = map (@EvProbe Path) (probed_until w (default_paths (dirs_with_cwd w c))) /\
      (forall f, first_existing w (default_paths (dirs_with_cwd w c)) = Some f ->
         p = f /\ tried = [str f] /\ path_exists w f = true) /\
      (first_existing w (default_paths (dirs_with_cwd w c)) = None ->
         p = Path_of "model/RF_binary_v1.pickle" /\
         tried = map str (default_paths (dirs_with_cwd w c)) /\
         probed log = default_paths (dirs_with_cwd w c)).
Proof.
  split; [reflexivity|]. intros log p tried H.
  change (prepare_model_path w (Some EmptyString)) with (default_flow w []) in H.
  destruct (getcwd w) as [e|c] eqn:Hc.
  - rewrite (default_flow_no_cwd w [] Hc) in H. discriminate.
  - exists c. split; [reflexivity|].
    rewrite (default_flow_eq w [] Hc) in H.
    destruct (first_existing w (default_paths (dirs_with_cwd w c))) as [f|] eqn:F;
      inversion H; subst; clear H.
    + split; [reflexivity|]. split; [|discriminate].
      intros f' E. inversion E; subst f'.
      split; [reflexivity|]. split; [reflexivity|].
      apply (first_existing_some w _ F).
    + split; [reflexivity|]. split; [discriminate|].
      intros _. split; [reflexivity|]. split; [reflexivity|].
      now rewrite probed_map, (probed_until_none w _ F).
Qed.

Lemma empty_model_flag_witness :
  let w := Example.world (Example.with_files Example.base ["/work/RF_binary_v1.pickle"]) in
  exists c,
    getcwd w = inr c /\
    [EvProbe (Path_of "/app/model/RF_binary_v1.pickle");
     EvProbe (Path_of "/app/RF_binary_v1.pickle");
     EvProbe (Path_of "/work/model/RF_binary_v1.pickle");
     EvProbe (Path_of "/work/RF_binary_v1.pickle")]
    = map (@EvProbe Path) (probed_until w (default_paths (dirs_with_cwd w c))).
Proof.
  cbv zeta.
  destruct (@empty_model_flag_is_no_flag PosixPath
              (Example.world (Example.with_files Example.base ["/work/RF_binary_v1.pickle"])))
    as [_ H].
  destruct (H [EvProbe (Path_of "/app/model/RF_binary_v1.pickle");
               EvProbe (Path_of "/app/RF_binary_v1.pickle");
               EvProbe (Path_of "/work/model/RF_binary_v1.pickle");
               EvProbe (Path_of "/work/RF_binary_v1.pickle")]
              (Path_of "/work/RF_binary_v1.pickle") ["/work/RF_binary_v1.pickle"]
              eq_refl) as [c [Hc [L _]]].
  exists c. split; [exact Hc | exact L].
Defined.

(** * Further properties of the resolver *)

Section DirectoryFacts.

Context {PL : Pathlib}.
Variable w : World.

Lemma mem_false (d : Path) (dirs : list Path) : mem d dirs = false <-> ~ In d dirs.
Proof. unfold mem. destruct (in_dec Path_eq_dec d dirs); split; congruence. Qed.

Lemma in_append_if_new_iff (d x : Path) (dirs : list Path) :
  In x (append_if_new d dirs) <-> In x dirs \/ x = d.
Proof.
  unfold append_if_new. destruct (mem d dirs) eqn:E.
  - apply mem_true in E. split; [now left | intros [H | ->]; assumption].
  - rewrite in_app_iff. cbn [In]. intuition congruence.
Qed.

Lemma in_insert_front_iff (d x : Path) (dirs : list Path) :
  In x (insert_front_if_new d dirs) <-> In x dirs \/ x = d.
Proof.
  unfold insert_front_if_new. destruct (mem d dirs) eqn:E.
  - apply mem_true in E. split; [now left | intros [H | ->]; assumption].
  - cbn [In]. intuition congruence.
Qed.

Lemma nodup_append_if_new (d : Path) (dirs : list Path) :
  NoDup dirs -> NoDup (append_if_new d dirs).
Proof.
  intros N. unfold append_if_new. destruct (mem d dirs) eqn:E; [exact N|].
  apply mem_false in E. apply NoDup_app; [exact N | repeat constructor; intros [] |].
  intros x Hx [<- | []]. contradiction.
Qed.

Lemma nodup_insert_front (d : Path) (dirs : list Path) :
  NoDup dirs -> NoDup (insert_front_if_new d dirs).
Proof.
  intros N. unfold insert_front_if_new. destruct (mem d dirs) eqn:E; [exact N|].
  apply mem_false in E. now constructor.
Qed.

Lemma length_append_if_new (d : Path) (dirs : list Path) :
  length dirs <= length (append_if_new d dirs) <= S (length dirs).
Proof.
  unfold append_if_new. destruct (mem d dirs); [lia|].
  rewrite length_app. cbn. lia.
Qed.

Lemma length_insert_front (d : Path) (dirs : list Path) :
  length dirs <= length (insert_front_if_new d dirs) <= S (length dirs).
Proof. unfold insert_front_if_new. destruct (mem d dirs); cbn; lia. Qed.

Lemma nodup_bundled_dirs : NoDup (bundled_dirs w).
Proof.
  assert (S : NoDup (script_dirs w)).
  { unfold script_dirs. destruct (resolve w (Path_of (dunder_file w)));
      repeat constructor. intros []. }
  assert (L : NoDup (launch_dirs w)).
  { unfold launch_dirs. destruct (resolve w (Path_of (sys_argv0 w)));
      [exact S | now apply nodup_append_if_new]. }
  unfold bundled_dirs. destruct (bundle_dir w); [now apply nodup_insert_front | exact L].
Qed.

Lemma length_bundled_dirs : length (bundled_dirs w) <= 3.
Proof.
  assert (S : length (script_dirs w) <= 1).
  { unfold script_dirs. destruct (resolve w (Path_of (dunder_file w))); cbn; lia. }
  assert (L : length (launch_dirs w) <= 2).
  { unfold launch_dirs. destruct (resolve w (Path_of (sys_argv0 w))) as [e|p]; [lia|].
    pose proof (length_append_if_new (parent p) (script_dirs w)). lia. }
  unfold bundled_dirs. destruct (bundle_dir w) as [b|]; [|lia].
  pose proof (length_insert_front b (launch_dirs w)). lia.
Qed.

Lemma in_bundled_dirs (d : Path) :
  In d (bundled_dirs w) <->
  (exists p, resolve w (Path_of (dunder_file w)) = inr p /\ d = parent p) \/
  (exists p, resolve w (Path_of (sys_argv0 w)) = inr p /\ d = parent p) \/
  (exists mp, sys_meipass w = Some mp /\ truthy mp = true /\ d = Path_of mp).
Proof.
  assert (S : In d (script_dirs w) <->
              exists p, resolve w (Path_of (dunder_file w)) = inr p /\ d = parent p).
  { unfold script_dirs. destruct (resolve w (Path_of (dunder_file w))) as [e|p].
    - split; [intros [] | intros [q [H _]]; discriminate].
    - split.
      + intros [<- | []]. now exists p.
      + intros [q [H ->]]. inversion H. now left. }
  assert (L : In d (launch_dirs w) <->
              In d (script_dirs w) \/
              exists p, resolve w (Path_of (sys_argv0 w)) = inr p /\ d = parent p).
  { unfold launch_dirs. destruct (resolve w (Path_of (sys_argv0 w))) as [e|p].
    - split; [now left | intros [H | [q [H _]]]; [exact H | discriminate]].
    - rewrite in_append_if_new_iff. split.
      + intros [H | ->]; [now left | right; now exists p].
      + intros [H | [q [H ->]]]; [now left | right; now inversion H]. }
  assert (B : forall b, bundle_dir w = Some b <->
                        exists mp, sys_meipass w = Some mp /\ truthy mp = true /\ b = Path_of mp).
  { intros b. unfold bundle_dir. destruct (sys_meipass w) as [mp|].
    - destruct (truthy mp) eqn:T.
      + split.
        * intros H. inversion H. now exists mp.
        * intros [mp' [H [_ ->]]]. now inversion H.
      + split; [discriminate | intros [mp' [H [T' _]]]; inversion H; congruence].
    - split; [discriminate | intros [mp' [H _]]; discriminate]. }
  unfold bundled_dirs. destruct (bundle_dir w) as [b|] eqn:E.
  - rewrite in_insert_front_iff, L, S. split.
    + intros [[H | H] | ->]; [now left | right; now left | right; right; now apply B].
    + intros [H | [H | H]]; [left; now left | left; now right |].
      right. apply B in H. congruence.
  - rewrite L, S. split.
    + intros [H | H]; [now left | right; now left].
    + intros [H | [H | H]]; [now left | now right |].
      apply B in H. discriminate.
Qed.


(** A first-match search splits its list at the hit. *)
Lemma first_existing_split (ps : list Path) (p : Path) :
  first_existing w ps = Some p ->
  exists pre post,
    ps = pre ++ p :: post /\
    (forall q, In q pre -> path_exists w q = false) /\
    probed_until w ps = pre ++ [p].
Proof.
  unfold first_existing. induction ps as [|q ps IH]; [discriminate|].
  cbn [find probed_until]. destruct (path_exists w q) eqn:E.
  - intros H. inversion H; subst q. exists [], ps.
    split; [reflexivity|]. split; [intros ? [] | reflexivity].
  - intros H. destruct (IH H) as [pre [post [H1 [H2 H3]]]].
    exists (q :: pre), post. split; [now rewrite H1|]. split.
    + intros x [<- | Hx]; [exact E | now apply H2].
    + now rewrite H3.
Qed.

End DirectoryFacts.

Section ResolverCases.

Context {PL : Pathlib}.
Variable w : World.

Lemma prepare_as_given (s : string) :
  truthy s = true ->
  path_exists w (Path_of s) = true ->
  prepare_model_path w (Some s) = ([EvProbe (Path_of s)], Ret (Path_of s, [str (Path_of s)])).
Proof.
  intros T E. unfold prepare_model_path. rewrite T, probe_eq, bind_ret, E. reflexivity.
Qed.

Lemma prepare_no_cwd (e : exn) (cli_model : option string) :
  getcwd w = inl e ->
  found_as_given w cli_model = false ->
  result_of (prepare_model_path w cli_model) = Raise e.
Proof.
  intros Hc F. destruct cli_model as [s|]; [destruct (truthy s) eqn:T|].
  - unfold found_as_given in F. rewrite T in F. cbn [andb] in F.
    unfold prepare_model_path. rewrite T, probe_eq, bind_ret, F.
    rewrite candidate_dirs_eq, Hc. reflexivity.
  - rewrite (prepare_default_eq w (Some s) T), (default_flow_no_cwd w [] Hc). reflexivity.
  - rewrite (prepare_default_eq w None I), (default_flow_no_cwd w [] Hc). reflexivity.
Qed.

Lemma default_paths_nonempty (c : Path) : default_paths (dirs_with_cwd w c) <> [].
Proof.
  intros H.
  assert (I : In (joinpath c "model/RF_binary_v1.pickle") (default_paths (dirs_with_cwd w c))).
  { unfold default_paths. apply in_flat_map. exists c.
    split; [apply in_append_if_new | now left]. }
  rewrite H in I. destruct I.
Qed.

Lemma default_flow_cases (c : Path) (cli_model : option string)
      (before : list Path) (log : list (event Path)) (p : Path) (tried : list string) :
  getcwd w = inr c ->
  (forall q, In q before -> path_exists w q = false) ->
  default_flow w (map str before) = (log, Ret (p, tried)) ->
  resolution w cli_model (map (@EvProbe Path) before ++ log) p tried.
Proof.
  intros Hc A. rewrite (default_flow_eq w _ Hc).
  destruct (first_existing w (default_paths (dirs_with_cwd w c))) as [f|] eqn:D;
    intros H; inversion H; subst; clear H.
  - destruct (first_existing_split w _ p D) as [pre [post [_ [H2 H3]]]].
    destruct (first_existing_some w _ D) as [_ Ef].
    apply DefaultHit with (pre := before ++ pre); try reflexivity; try assumption.
    + now rewrite H3, <- map_app, app_assoc.
    + intros q Hq. apply in_app_or in Hq. destruct Hq; [now apply A | now apply H2].
  - apply NothingFound with (ps := before ++ default_paths (dirs_with_cwd w c)).
    + reflexivity.
    + now rewrite (probed_until_none w _ D), map_app.
    + now rewrite map_app.
    + intros E. apply app_eq_nil in E. now apply (default_paths_nonempty c).
    + intros q Hq. apply in_app_or in Hq. destruct Hq; [now apply A|].
      now apply (proj1 (first_existing_none w _) D).
Qed.

(** Every pair the resolver returns is an explicit hit, a default hit, or
    the bare first default name after probing in vain. *)
Lemma prepare_cases (cli_model : option string) (log : list (event Path))
      (p : Path) (tried : list string) :
  prepare_model_path w cli_model = (log, Ret (p, tried)) ->
  resolution w cli_model log p tried.
Proof.
  intros H. destruct (getcwd w) as [e|c] eqn:Hc.
  - destruct (found_as_given w cli_model) eqn:F.
    + destruct cli_model as [s|]; [|discriminate].
      unfold found_as_given in F. apply andb_prop in F. destruct F as [T E].
      rewrite (prepare_as_given s T E) in H. inversion H; subst.
      now apply ExplicitHit with (s := s) (pre := []).
    + pose proof (prepare_no_cwd e cli_model Hc F) as R. rewrite H in R. discriminate.
  - assert (D0 : forall m, prepare_model_path w m = default_flow w [] ->
                 prepare_model_path w m = (log, Ret (p, tried)) ->
                 resolution w cli_model log p tried).
    { intros m Em Hm. rewrite Em in Hm.
      apply (default_flow_cases c cli_model [] log p tried Hc); [intros ? []|exact Hm]. }
    destruct cli_model as [s|]; [destruct (truthy s) eqn:T|].
    + rewrite (prepare_explicit_eq w s Hc T) in H.
      destruct (first_existing w (explicit_paths s (dirs_with_cwd w c))) as [q|] eqn:X.
      * inversion H; subst; clear H.
        destruct (first_existing_split w _ p X) as [pre [post [_ [H2 H3]]]].
        destruct (first_existing_some w _ X) as [_ Ep].
        apply ExplicitHit with (s := s) (pre := pre); try assumption; try reflexivity;
          rewrite <- H3; reflexivity.
      * destruct (default_flow w (map str (explicit_paths s (dirs_with_cwd w c))))
          as [dl dr] eqn:DF.
        unfold log_of, result_of in H. cbn [fst snd] in H. inversion H; subst; clear H.
        apply (default_flow_cases c (Some s) (explicit_paths s (dirs_with_cwd w c))
                 dl p tried Hc);
          [apply (proj1 (first_existing_none w _) X) | exact DF].
    + apply (D0 (Some s)); [now apply prepare_default_eq | exact H].
    + apply (D0 None); [now apply prepare_default_eq | exact H].
Qed.

End ResolverCases.

(** X1: the list [candidate_dirs] returns has no duplicate, holds between
    one and four directories, among them the working directory, and
    computing it probes nothing. *)
Theorem candidate_dirs_invariants {PL : Pathlib} (w : World)
        (log : list (event Path)) (dirs : list Path) :
  candidate_dirs w = (log, Ret dirs) ->
  log = [] /\ NoDup dirs /\ 1 <= length dirs <= 4 /\
  exists c, getcwd w = inr c /\ In c dirs.
Proof.
  rewrite candidate_dirs_eq. destruct (getcwd w) as [e|c]; [discriminate|].
  intros H. inversion H; subst. split; [reflexivity|].
  split; [apply nodup_append_if_new, nodup_bundled_dirs|].
  pose proof (length_bundled_dirs w) as B.
  pose proof (length_append_if_new c (bundled_dirs w)) as A.
  pose proof (in_append_if_new c (bundled_dirs w)) as I.
  split.
  - destruct (append_if_new c (bundled_dirs w)); [destruct I | cbn in *; lia].
  - exists c. split; [reflexivity | exact I].
Qed.

Lemma candidate_dirs_invariants_witness :
  let w := Example.world Example.base in
  NoDup [Path_of "/app"; Path_of "/work"] /\
  exists c, getcwd w = inr c /\ In c [Path_of "/app"; Path_of "/work"].
Proof.
  cbv zeta.
  destruct (@candidate_dirs_invariants PosixPath (Example.world Example.base)
              [] [Path_of "/app"; Path_of "/work"] eq_refl)
    as [_ [N [_ C]]].
  split; [exact N | exact C].
Defined.

(** X2: a directory is in the list [candidate_dirs] returns exactly when
    it is the parent of the resolved script path, the parent of the
    resolved [sys.argv[0]], the non-empty [_MEIPASS] directory, or the
    working directory; a lookup that raised adds nothing. *)
Theorem candidate_dirs_members {PL : Pathlib} (w : World)
        (log : list (event Path)) (dirs : list Path) :
  candidate_dirs w = (log, Ret dirs) ->
  forall d, In d dirs <-> dir_source w d.
Proof.
  rewrite candidate_dirs_eq. destruct (getcwd w) as [e|c] eqn:Hc; [discriminate|].
  intros H d. inversion H; subst. unfold dir_source.
  rewrite in_append_if_new_iff, in_bundled_dirs, Hc. split.
  - intros [[A | [A | A]] | ->]; auto.
  - intros [A | [A | [A | A]]]; auto. right. congruence.
Qed.

Lemma candidate_dirs_members_witness :
  let s := {| Example.files := []; Example.workdir := Some "/work";
              Example.script := "/app/run.py"; Example.argv0 := "/opt/bin/run";
              Example.args := []; Example.meipass := Some "/bundle";
              Example.tables := []; Example.models := [] |} in
  let w := Example.world s in
  dir_source w (Path_of "/opt/bin") /\ ~ dir_source w (Path_of "/opt").
Proof.
  cbv zeta.
  pose proof (@candidate_dirs_members PosixPath
                (Example.world
                   {| Example.files := []; Example.workdir := Some "/work";
                      Example.script := "/app/run.py"; Example.argv0 := "/opt/bin/run";
                      Example.args := []; Example.meipass := Some "/bundle";
                      Example.tables := []; Example.models := [] |})
                [] [Path_of "/bundle"; Path_of "/app"; Path_of "/opt/bin"; Path_of "/work"]
                eq_refl) as M.
  split.
  - apply M. right. right. now left.
  - intros H. apply M in H.
    destruct H as [H | [H | [H | [H | []]]]]; vm_compute in H; discriminate.
Defined.



(** X4: when [Path.cwd()] raises, the resolver raises the same exception
    whenever it has to consult the candidate directories, that is when no
    explicit path is given, when it is empty, or when it does not exist
    as given; an explicit path that exists as given is returned after a
    single probe, whatever [Path.cwd()] does. *)
Theorem resolver_without_cwd {PL : Pathlib} (w : World) (e : exn)
        (cli_model : option string) :
  getcwd w = inl e ->
  (found_as_given w cli_model = false ->
   result_of (prepare_model_path w cli_model) = Raise e /\
   forall ev, In ev (log_of (prepare_model_path w cli_model)) ->
              exists s, cli_model = Some s /\ ev = EvProbe (Path_of s)) /\
  (forall s, cli_model = Some s -> truthy s = true ->
             path_exists w (Path_of s) = true ->
             prepare_model_path w cli_model
             = ([EvProbe (Path_of s)], Ret (Path_of s, [str (Path_of s)]))).
Proof.
  intros Hc. split.
  - intros F. split; [apply (prepare_no_cwd w e cli_model Hc F)|].
    destruct cli_model as [s|]; [destruct (truthy s) eqn:T|].
    + unfold found_as_given in F. rewrite T in F. cbn [andb] in F.
      unfold prepare_model_path. rewrite T, probe_eq, bind_ret, F.
      rewrite candidate_dirs_eq, Hc. cbn.
      intros ev [<- | []]. now exists s.
    + rewrite (prepare_default_eq w (Some s) T), (default_flow_no_cwd w [] Hc).
      intros ev [].
    + rewrite (prepare_default_eq w None I), (default_flow_no_cwd w [] Hc).
      intros ev [].
  - intros s -> T E. apply (prepare_as_given w s T E).
Qed.

Lemma resolver_without_cwd_witness :
  let w := Example.world
             (Example.with_workdir
                (Example.with_files Example.base ["/opt/models/m.pickle"]) None) in
  result_of (prepare_model_path w (Some "missing.pickle")) = Raise Example.enoent /\
  prepare_model_path w (Some "/opt/models/m.pickle")
  = ([EvProbe (Path_of "/opt/models/m.pickle")],
     Ret (Path_of "/opt/models/m.pickle", ["/opt/models/m.pickle"])).
Proof.
  cbv zeta. split.
  - destruct (@resolver_without_cwd PosixPath
                (Example.world
                   (Example.with_workdir
                      (Example.with_files Example.base ["/opt/models/m.pickle"]) None))
                Example.enoent (Some "missing.pickle") eq_refl) as [H _].
    apply (H eq_refl).
  - destruct (@resolver_without_cwd PosixPath
                (Example.world
                   (Example.with_workdir
                      (Example.with_files Example.base ["/opt/models/m.pickle"]) None))
                Example.enoent (Some "/opt/models/m.pickle") eq_refl) as [_ H].
    apply (H "/opt/models/m.pickle" eq_refl eq_refl eq_refl).
Defined.

Section ExplicitFallback.

Context {PL : Pathlib}.
Variable w : World.

(** A first-match search over one name joined to each directory stops at
    the first directory that has it. *)
Lemma first_joined_split (s : string) (dirs : list Path) (q : Path) :
  first_existing w (joined_paths s dirs) = Some q ->
  exists pre d post,
    dirs = pre ++ d :: post /\ q = joinpath d s /\
    (forall d', In d' pre -> path_exists w (joinpath d' s) = false) /\
    probed_until w (joined_paths s dirs) = joined_paths s (pre ++ [d]).
Proof.
  unfold first_existing, joined_paths. induction dirs as [|b dirs IH]; [discriminate|].
  cbn [map find probed_until]. destruct (path_exists w (joinpath b s)) eqn:E.
  - intros H. inversion H; subst q. exists [], b, dirs.
    split; [reflexivity|]. split; [reflexivity|]. split; [intros ? [] | reflexivity].
  - intros H. destruct (IH H) as [pre [d [post [H1 [H2 [H3 H4]]]]]].
    exists (b :: pre), d, post. split; [now rewrite H1|]. split; [exact H2|]. split.
    + intros x [<- | Hx]; [exact E | now apply H3].
    + cbn [app map]. now rewrite H4.
Qed.

End ExplicitFallback.

(** X5: an explicit model path that does not exist as given is looked up
    under the candidate directories in order; the first directory that
    has it wins, the resolver returns that joined path with the list of
    the paths tried so far, ending with it, and the default names are
    not probed at all. *)
Theorem explicit_path_found_under_directory {PL : Pathlib} (w : World) (c : Path)
        (s : string) (q : Path) :
  getcwd w = inr c ->
  truthy s = true ->
  path_exists w (Path_of s) = false ->
  first_existing w (joined_paths s (dirs_with_cwd w c)) = Some q ->
  exists pre d post,
    dirs_with_cwd w c = pre ++ d :: post /\
    q = joinpath d s /\
    path_exists w (joinpath d s) = true /\
    (forall d', In d' pre -> path_exists w (joinpath d' s) = false) /\
    prepare_model_path w (Some s)
    = (map (@EvProbe Path) (Path_of s :: joined_paths s (pre ++ [d])),
       Ret (joinpath d s, map str (Path_of s :: joined_paths s (pre ++ [d])))).
Proof.
  intros Hc T E F.
  destruct (first_joined_split w s _ q F) as [pre [d [post [H1 [H2 [H3 H4]]]]]].
  destruct (first_existing_some w _ F) as [_ Eq].
  exists pre, d, post. split; [exact H1|]. split; [exact H2|].
  split; [now rewrite <- H2|]. split; [exact H3|].
  rewrite (prepare_explicit_eq w s Hc T).
  unfold explicit_paths, first_existing. cbn [find probed_until]. rewrite E.
  fold (first_existing w (joined_paths s (dirs_with_cwd w c))).
  rewrite F, H4, H2. reflexivity.
Qed.

Lemma explicit_path_fallback_witness :
  let w := Example.world (Example.with_files Example.base ["/app/x.pkl"]) in
  exists pre d post,
    dirs_with_cwd w (Path_of "/work") = pre ++ d :: post /\
    Path_of "/app/x.pkl" = joinpath d "x.pkl" /\
    path_exists w (joinpath d "x.pkl") = true /\
    (forall d', In d' pre -> path_exists w (joinpath d' "x.pkl") = false) /\
    prepare_model_path w (Some "x.pkl")
    = (map (@EvProbe Path) (Path_of "x.pkl" :: joined_paths "x.pkl" (pre ++ [d])),
       Ret (joinpath d "x.pkl",
            map str (Path_of "x.pkl" :: joined_paths "x.pkl" (pre ++ [d])))).
Proof.
  cbv zeta.
  exact (@explicit_path_found_under_directory PosixPath
           (Example.world (Example.with_files Example.base ["/app/x.pkl"]))
           (Path_of "/work") "x.pkl" (Path_of "/app/x.pkl")
           eq_refl eq_refl eq_refl eq_refl).
Defined.

(** X6: the path the resolver returns exists and is the last entry of
    the returned list, unless every path it probed is absent, in which
    case it is the bare first default name. *)
Theorem resolved_path_exists_or_bare {PL : Pathlib} (w : World)
        (cli_model : option string) (log : list (event Path)) (p : Path)
        (tried : list string) :
  prepare_model_path w cli_model = (log, Ret (p, tried)) ->
  (path_exists w p = true /\ (exists before, tried = before ++ [str p]) /\
   exists pre, probed log = pre ++ [p] /\
               forall q, In q pre -> path_exists w q = false) \/
  (p = Path_of "model/RF_binary_v1.pickle" /\
   forall q, In q (probed log) -> path_exists w q = false).
Proof.
  intros H. destruct (prepare_cases w cli_model log p tried H)
    as [s pre Hm T L Tr E A | pre L Tr E A | ps Hp L Tr N A].
  - left. split; [exact E|]. split.
    + exists (map str pre). now rewrite Tr, map_app.
    + exists pre. split; [now rewrite L, probed_map | exact A].
  - left. split; [exact E|]. split.
    + exists []. exact Tr.
    + exists pre. split; [now rewrite L, probed_map | exact A].
  - right. split; [exact Hp|]. now rewrite L, probed_map.
Qed.

Lemma resolved_path_witness :
  let w := Example.world Example.base in
  path_exists w (Path_of "/app/model/RF_binary_v1.pickle") = true \/
  Path_of "/app/model/RF_binary_v1.pickle" = Path_of "model/RF_binary_v1.pickle".
Proof.
  cbv zeta.
  destruct (@resolved_path_exists_or_bare PosixPath (Example.world Example.base) None
              [EvProbe (Path_of "/app/model/RF_binary_v1.pickle")]
              (Path_of "/app/model/RF_binary_v1.pickle")
              ["/app/model/RF_binary_v1.pickle"] eq_refl)
    as [[E _] | [E _]]; [now left | now right].
Defined.

(** X7: the list the resolver returns is never empty and names only
    paths that were really probed; the log of the resolver consists of
    those probes. *)
Theorem tried_list_sound {PL : Pathlib} (w : World)
        (cli_model : option string) (log : list (event Path)) (p : Path)
        (tried : list string) :
  prepare_model_path w cli_model = (log, Ret (p, tried)) ->
  tried <> [] /\
  incl tried (map str (probed log)) /\
  log = map (@EvProbe Path) (probed log).
Proof.
  intros H. destruct (prepare_cases w cli_model log p tried H)
    as [s pre Hm T L Tr E A | pre L Tr E A | ps Hp L Tr N A];
    rewrite L, probed_map.
  - split; [|split; [|reflexivity]].
    + rewrite Tr, map_app. intros X. apply app_eq_nil in X. destruct X; discriminate.
    + rewrite Tr. apply incl_refl.
  - split; [|split; [|reflexivity]].
    + rewrite Tr. discriminate.
    + rewrite Tr. intros x [<- | []]. apply in_map, in_or_app. right. now left.
  - split; [|split; [|reflexivity]].
    + rewrite Tr. intros X. apply map_eq_nil in X. contradiction.
    + rewrite Tr. apply incl_refl.
Qed.

Lemma tried_list_sound_witness :
  let w := Example.world Example.base in
  incl ["/app/model/RF_binary_v1.pickle"]
       (map str (probed [EvProbe (Path_of "x.pkl"); EvProbe (Path_of "/app/x.pkl");
                         EvProbe (Path_of "/work/x.pkl");
                         EvProbe (Path_of "/app/model/RF_binary_v1.pickle")])).
Proof.
  cbv zeta.
  destruct (@tried_list_sound PosixPath (Example.world Example.base) (Some "x.pkl")
              [EvProbe (Path_of "x.pkl"); EvProbe (Path_of "/app/x.pkl");
               EvProbe (Path_of "/work/x.pkl");
               EvProbe (Path_of "/app/model/RF_binary_v1.pickle")]
              (Path_of "/app/model/RF_binary_v1.pickle")
              ["/app/model/RF_binary_v1.pickle"] eq_refl)
    as [_ [I _]].
  exact I.
Defined.

(** * Further properties of the entry point *)

Ltac norm_log plog llog :=
  rewrite ?(app_nil_r llog);
  repeat (rewrite <- (app_assoc plog) || rewrite <- (app_assoc llog)
          || (progress cbn [app])).

Ltac py_step :=
  cbn [bind lift ret raise emit try_except fst snd log_of result_of app negb
       sys_exit probe first_pred parse_args main_handler].

Section MoreRuns.

Context {PL : Pathlib}.
Variable w : World.

Lemma load_raise_inv (p : Path) (llog : list (event Path)) (le : exn) :
  load_model_from_path w p = (llog, Raise le) ->
  (path_exists w p = false /\ le = model_missing p /\ llog = [EvProbe p]) \/
  (path_exists w p = true /\ pickle_load w p = inl le /\
   llog = [EvProbe p; EvOpenModel p]).
Proof.
  unfold load_model_from_path. py_run.
  destruct (path_exists w p); py_run.
  - destruct (pickle_load w p) as [e|m]; py_run; [|discriminate].
    intros H. inversion H. right. auto.
  - intros H. inversion H. left. auto.
Qed.

Lemma load_log_quiet (p : Path) :
  filter shown (log_of (load_model_from_path w p)) = [] /\
  existsb (fun ev => match ev with EvPredict => true | _ => false end)
          (log_of (load_model_from_path w p)) = false.
Proof.
  unfold load_model_from_path. py_run.
  destruct (path_exists w p); py_run; [|split; reflexivity].
  destruct (pickle_load w p); split; reflexivity.
Qed.

(** The run up to the loading of the model. *)
Lemma main_load_raises_eq (args : Namespace) (plog llog : list (event Path)) (p : Path)
      (tried : list string) (df : DataFrame) (le : exn) :
  argparse w (sys_args w) = Parsed args ->
  path_exists w (Path_of (ns_csv args)) = true ->
  prepare_model_path w (ns_model args) = (plog, Ret (p, tried)) ->
  read_csv w (str (Path_of (ns_csv args))) = inr df ->
  0 < shape0 (dropna df) ->
  load_model_from_path w p = (llog, Raise le) ->
  main w =
  (EvProbe (Path_of (ns_csv args)) :: plog
     ++ EvReadCsv (str (Path_of (ns_csv args))) :: llog
     ++ [EvWrite Stderr (error_line w (load_failed w tried le))],
   Exit 2).
Proof.
  intros HP HC HR HD HS HL. unfold main, main_body, parse_args.
  rewrite HP. py_step. rewrite HC. py_step. rewrite HR. py_step. rewrite HD. py_step.
  destruct (Nat.eqb_spec (shape0 (dropna df)) 0) as [Z0|_]; [lia|]. py_step.
  rewrite HL. py_step. norm_log plog llog; reflexivity.
Qed.

(** The run after the model is loaded, by what [predict] and the lookup
    of the label give. *)
Lemma main_predict_raises_eq (args : Namespace) (plog llog : list (event Path)) (p : Path)
      (tried : list string) (df : DataFrame) (model : Model) (e : exn) :
  argparse w (sys_args w) = Parsed args ->
  path_exists w (Path_of (ns_csv args)) = true ->
  prepare_model_path w (ns_model args) = (plog, Ret (p, tried)) ->
  read_csv w (str (Path_of (ns_csv args))) = inr df ->
  0 < shape0 (dropna df) ->
  load_model_from_path w p = (llog, Ret model) ->
  (predict model (dropna df) = inl e \/
   (predict model (dropna df) = inr [] /\
    e = Exn IndexError "index 0 is out of bounds for axis 0 with size 0") \/
   (exists code rest, predict model (dropna df) = inr (code :: rest) /\
                      code <> 0%Z /\ code <> 1%Z /\ e = Exn KeyError (repr_code w code))) ->
  main w =
  (EvProbe (Path_of (ns_csv args)) :: plog
     ++ EvReadCsv (str (Path_of (ns_csv args))) :: llog
     ++ [EvPredict; EvWrite Stderr (error_line w e)],
   Exit 2).
Proof.
  intros HP HC HR HD HS HL HM. unfold main, main_body, parse_args.
  rewrite HP. py_step. rewrite HC. py_step. rewrite HR. py_step. rewrite HD. py_step.
  destruct (Nat.eqb_spec (shape0 (dropna df)) 0) as [Z0|_]; [lia|]. py_step.
  rewrite HL. py_step.
  destruct HM as [HM | [[HM ->] | [code [rest [HM [N0 [N1 ->]]]]]]]; rewrite HM; py_step.
  - norm_log plog llog; reflexivity.
  - norm_log plog llog; reflexivity.
  - unfold mapping.
    destruct (Z.eqb_spec code 0) as [|_]; [contradiction|].
    destruct (Z.eqb_spec code 1) as [|_]; [contradiction|].
    py_step. norm_log plog llog; reflexivity.
Qed.

Lemma main_read_csv_raises_eq (args : Namespace) (plog : list (event Path)) (p : Path)
      (tried : list string) (e : exn) :
  argparse w (sys_args w) = Parsed args ->
  path_exists w (Path_of (ns_csv args)) = true ->
  prepare_model_path w (ns_model args) = (plog, Ret (p, tried)) ->
  read_csv w (str (Path_of (ns_csv args))) = inl e ->
  main w =
  (EvProbe (Path_of (ns_csv args)) :: plog
     ++ [EvReadCsv (str (Path_of (ns_csv args))); EvWrite Stderr (error_line w e)],
   Exit 2).
Proof.
  intros HP HC HR HD. unfold main, main_body, parse_args.
  rewrite HP. py_step. rewrite HC. py_step. rewrite HR. py_step. rewrite HD. py_step.
  norm_log plog plog; reflexivity.
Qed.

Lemma is_write_shown (l : list (event Path)) :
  filter is_write (filter shown l) = filter is_write l.
Proof.
  induction l as [|ev l IH]; [reflexivity|].
  destruct ev; cbn [filter shown is_write]; now rewrite ?IH.
Qed.

(** The streams of a log whose shown events are one write to stderr. *)
Lemma stderr_only (log : list (event Path)) (s : string) :
  filter shown log = [EvWrite Stderr s] ->
  written Stdout log = EmptyString /\ written Stderr log = s.
Proof.
  intros F. rewrite <- (written_shown Stdout log), <- (written_shown Stderr log), F.
  cbn [written].
  split; [reflexivity | apply StrFacts.append_nil_r].
Qed.

End MoreRuns.

Section StreamFacts.

Context {PL : Pathlib}.
Variable w : World.

Lemma probes_no_predict (l : list (event Path)) :
  forallb is_probe l = true -> ~ In EvPredict l.
Proof.
  induction l as [|ev l IH]; [intros _ []|].
  destruct ev; cbn [forallb is_probe andb]; try discriminate.
  intros H [E | I]; [discriminate | now apply IH].
Qed.

(** What a run that ends in the handler after the resolver returned
    shows: the middle of the log is silent. *)
Lemma failure_streams (csv : Path) (plog mid : list (event Path)) (file : string)
      (e : exn) :
  forallb is_probe plog = true ->
  filter shown mid = [] ->
  filter shown (EvProbe csv :: plog ++ EvReadCsv file :: mid ++ [EvWrite Stderr (error_line w e)])
  = [EvWrite Stderr (error_line w e)].
Proof.
  intros Q S. cbn [filter shown]. rewrite filter_app, (shown_probes _ Q).
  cbn [app filter shown]. rewrite filter_app, S. reflexivity.
Qed.

End StreamFacts.

(** The streams and exit code of the run whose model fails to load. *)
Lemma load_error_is_wrapped_core {PL : Pathlib} (w : World) (args : Namespace)
      (plog llog : list (event Path)) (p : Path) (tried : list string)
      (df : DataFrame) (le : exn) :
  argparse w (sys_args w) = Parsed args ->
  path_exists w (Path_of (ns_csv args)) = true ->
  prepare_model_path w (ns_model args) = (plog, Ret (p, tried)) ->
  read_csv w (str (Path_of (ns_csv args))) = inr df ->
  0 < shape0 (dropna df) ->
  load_model_from_path w p = (llog, Raise le) ->
  exit_status (result_of (main w)) = 2%Z /\
  written Stdout (log_of (main w)) = EmptyString /\
  written Stderr (log_of (main w)) = error_line w (load_failed w tried le).
Proof.
  intros HP HC HR HD HS HL.
  pose proof (main_load_raises_eq w args plog llog p tried df le HP HC HR HD HS HL) as E.
  pose proof (resolver_log_probes w _ _ _ HR) as Q.
  assert (LS : filter shown llog = []).
  { destruct (load_raise_inv w p llog le HL) as [[_ [_ ->]] | [_ [_ ->]]]; reflexivity. }
  pose proof (failure_streams w (Path_of (ns_csv args)) plog llog
                (str (Path_of (ns_csv args))) (load_failed w tried le) Q LS) as F.
  assert (F' : filter shown (log_of (main w))
               = [EvWrite Stderr (error_line w (load_failed w tried le))])
    by (rewrite E; exact F).
  destruct (stderr_only (log_of (main w)) _ F') as [O R].
  split; [now rewrite E|]. split; [exact O | exact R].
Qed.

(** X8: whatever makes [load_model_from_path] raise (a missing file or
    a failure of [pickle.load]), [main] replaces the exception by a
    [FileNotFoundError] whose message holds the rendering of the list of
    attempted paths and the text of the original exception, writes its
    envelope to stderr, exits with code 2 and never calls [predict]. *)
Theorem load_error_is_wrapped {PL : Pathlib} (w : World) (args : Namespace)
        (plog llog : list (event Path)) (p : Path) (tried : list string)
        (df : DataFrame) (le : exn) :
  argparse w (sys_args w) = Parsed args ->
  path_exists w (Path_of (ns_csv args)) = true ->
  prepare_model_path w (ns_model args) = (plog, Ret (p, tried)) ->
  read_csv w (str (Path_of (ns_csv args))) = inr df ->
  0 < shape0 (dropna df) ->
  load_model_from_path w p = (llog, Raise le) ->
  let e := load_failed w tried le in
  exit_status (result_of (main w)) = 2%Z /\
  written Stdout (log_of (main w)) = EmptyString /\
  written Stderr (log_of (main w)) = error_line w e /\
  ~ In EvPredict (log_of (main w)) /\
  exc_type e = FileNotFoundError /\
  Str.infix_of (py_list_repr w tried) (exc_str e) /\
  Str.infix_of (exc_str le) (exc_str e).
Proof.
  intros HP HC HR HD HS HL e.
  pose proof (main_load_raises_eq w args plog llog p tried df le HP HC HR HD HS HL) as E.
  pose proof (resolver_log_probes w _ _ _ HR) as Q.
  assert (L : filter shown llog = [] /\ ~ In EvPredict llog).
  { destruct (load_raise_inv w p llog le HL) as [[_ [_ ->]] | [_ [_ ->]]];
      (split; [reflexivity|]); cbn [In]; intuition discriminate. }
  destruct L as [LS LP].
  pose proof (failure_streams w (Path_of (ns_csv args)) plog llog
                (str (Path_of (ns_csv args))) (load_failed w tried le) Q LS) as F.
  assert (F' : filter shown (log_of (main w))
               = [EvWrite Stderr (error_line w (load_failed w tried le))])
    by (rewrite E; exact F).
  destruct (stderr_only (log_of (main w)) _ F') as [O R].
  split; [now rewrite E|]. split; [exact O|]. split; [exact R|]. split.
  - rewrite E. unfold log_of. cbn [fst In]. intros [X | X]; [discriminate|].
    apply in_app_or in X. destruct X as [X | [X | X]];
      [now apply (probes_no_predict _ Q) | discriminate |].
    apply in_app_or in X. destruct X as [X | [X | []]]; [contradiction | discriminate].
  - split; [reflexivity|]. unfold e, load_failed. cbn [exc_str]. split.
    + apply StrFacts.infix_of_intro.
    + exists ("无法加载模型: attempted paths: " +++ py_list_repr w tried +++ ". Exception: "),
             EmptyString.
      now rewrite StrFacts.append_nil_r, !StrFacts.append_assoc.
Qed.

Lemma load_error_witness :
  let s := Example.with_files Example.base
             ["/data/in.csv"; "/work/model/RF_binary_v1.pickle"] in
  let w := Example.world s in
  exit_status (result_of (main w)) = 2%Z /\
  Str.infix_of "invalid load key"
    (exc_str (load_failed w ["/work/model/RF_binary_v1.pickle"]
                (Exn (LibraryError "UnpicklingError") "invalid load key"))).
Proof.
  cbv zeta.
  destruct (@load_error_is_wrapped PosixPath
              (Example.world
                 (Example.with_files Example.base
                    ["/data/in.csv"; "/work/model/RF_binary_v1.pickle"]))
              {| ns_csv := "/data/in.csv"; ns_model := None |}
              [EvProbe (Path_of "/app/model/RF_binary_v1.pickle");
               EvProbe (Path_of "/app/RF_binary_v1.pickle");
               EvProbe (Path_of "/work/model/RF_binary_v1.pickle")]
              [EvProbe (Path_of "/work/model/RF_binary_v1.pickle");
               EvOpenModel (Path_of "/work/model/RF_binary_v1.pickle")]
              (Path_of "/work/model/RF_binary_v1.pickle")
              ["/work/model/RF_binary_v1.pickle"]
              (Example.table Example.good_rows)
              (Exn (LibraryError "UnpicklingError") "invalid load key")
              eq_refl eq_refl eq_refl eq_refl (le_n 1) eq_refl)
    as [H1 [_ [_ [_ [_ [_ H2]]]]]].
  split; [exact H1 | exact H2].
Defined.

(** X9: a first class code other than 0 and 1 has no label: the lookup
    raises [KeyError], [main] writes nothing to stdout, writes to stderr
    the envelope whose [error] is the [repr] of the code, and exits with
    code 2. *)
Theorem unknown_class_code_fails {PL : Pathlib} (w : World) (args : Namespace)
        (plog llog : list (event Path)) (p : Path) (tried : list string)
        (df : DataFrame) (model : Model) (code : Z) (rest : list Z) :
  argparse w (sys_args w) = Parsed args ->
  path_exists w (Path_of (ns_csv args)) = true ->
  prepare_model_path w (ns_model args) = (plog, Ret (p, tried)) ->
  read_csv w (str (Path_of (ns_csv args))) = inr df ->
  0 < shape0 (dropna df) ->
  load_model_from_path w p = (llog, Ret model) ->
  predict model (dropna df) = inr (code :: rest) ->
  code <> 0%Z -> code <> 1%Z ->
  let e := Exn KeyError (repr_code w code) in
  exit_status (result_of (main w)) = 2%Z /\
  written Stdout (log_of (main w)) = EmptyString /\
  written Stderr (log_of (main w)) = error_line w e /\
  Json.get "error" (error_obj w e) = Some (JStr (repr_code w code)).
Proof.
  intros HP HC HR HD HS HL HM N0 N1 e.
  assert (E : main w =
              (EvProbe (Path_of (ns_csv args)) :: plog
                 ++ EvReadCsv (str (Path_of (ns_csv args))) :: llog
                 ++ [EvPredict; EvWrite Stderr (error_line w e)], Exit 2)).
  { apply (main_predict_raises_eq w args plog llog p tried df model e HP HC HR HD HS HL).
    right. right. exists code, rest. auto. }
  pose proof (shown_probes _ (resolver_log_probes w _ _ _ HR)) as QS.
  destruct (load_ok_inv w p llog model HL) as [_ [_ LL]].
  assert (F : filter shown (log_of (main w)) = [EvWrite Stderr (error_line w e)]).
  { rewrite E, LL. unfold log_of. cbn [fst filter shown]. rewrite filter_app, QS.
    reflexivity. }
  destruct (stderr_only (log_of (main w)) _ F) as [O R].
  split; [now rewrite E|]. split; [exact O|]. split; [exact R | reflexivity].
Qed.

Lemma unknown_class_code_witness :
  let s := {| Example.files := ["/data/in.csv"; "/app/model/RF_binary_v1.pickle"];
              Example.workdir := Some "/work"; Example.script := "/app/run.py";
              Example.argv0 := "/app/run.py"; Example.args := ["/data/in.csv"];
              Example.meipass := None;
              Example.tables := [("/data/in.csv", Example.table Example.good_rows)];
              Example.models := [("/app/model/RF_binary_v1.pickle",
                                  Example.constant_model 2)] |} in
  let w := Example.world s in
  exit_status (result_of (main w)) = 2%Z /\
  Json.get "error" (error_obj w (Exn KeyError (repr_code w 2))) = Some (JStr "2").
Proof.
  cbv zeta.
  destruct (@unknown_class_code_fails PosixPath
              (Example.world
                 {| Example.files := ["/data/in.csv"; "/app/model/RF_binary_v1.pickle"];
                    Example.workdir := Some "/work"; Example.script := "/app/run.py";
                    Example.argv0 := "/app/run.py"; Example.args := ["/data/in.csv"];
                    Example.meipass := None;
                    Example.tables := [("/data/in.csv", Example.table Example.good_rows)];
                    Example.models := [("/app/model/RF_binary_v1.pickle",
                                        Example.constant_model 2)] |})
              {| ns_csv := "/data/in.csv"; ns_model := None |}
              [EvProbe (Path_of "/app/model/RF_binary_v1.pickle")]
              [EvProbe (Path_of "/app/model/RF_binary_v1.pickle");
               EvOpenModel (Path_of "/app/model/RF_binary_v1.pickle")]
              (Path_of "/app/model/RF_binary_v1.pickle")
              ["/app/model/RF_binary_v1.pickle"]
              (Example.table Example.good_rows)
              (Example.constant_model 2) 2%Z []
              eq_refl eq_refl eq_refl eq_refl (le_n 1) eq_refl eq_refl)
    as [H1 [_ [_ H2]]]; [discriminate | discriminate |].
  split; [exact H1 | exact H2].
Defined.

(** X10: an exception raised by the model's [predict] reaches the
    handler unchanged: stderr holds the envelope of that very exception,
    stdout nothing, and the exit code is 2. *)
Theorem predict_error_is_reported {PL : Pathlib} (w : World) (args : Namespace)
        (plog llog : list (event Path)) (p : Path) (tried : list string)
        (df : DataFrame) (model : Model) (e : exn) :
  argparse w (sys_args w) = Parsed args ->
  path_exists w (Path_of (ns_csv args)) = true ->
  prepare_model_path w (ns_model args) = (plog, Ret (p, tried)) ->
  read_csv w (str (Path_of (ns_csv args))) = inr df ->
  0 < shape0 (dropna df) ->
  load_model_from_path w p = (llog, Ret model) ->
  predict model (dropna df) = inl e ->
  exit_status (result_of (main w)) = 2%Z /\
  written Stdout (log_of (main w)) = EmptyString /\
  written Stderr (log_of (main w)) = error_line w e /\
  Json.get "error" (error_obj w e) = Some (JStr (exc_str e)).
Proof.
  intros HP HC HR HD HS HL HM.
  assert (E : main w =
              (EvProbe (Path_of (ns_csv args)) :: plog
                 ++ EvReadCsv (str (Path_of (ns_csv args))) :: llog
                 ++ [EvPredict; EvWrite Stderr (error_line w e)], Exit 2)).
  { apply (main_predict_raises_eq w args plog llog p tried df model e HP HC HR HD HS HL).
    now left. }
  pose proof (shown_probes _ (resolver_log_probes w _ _ _ HR)) as QS.
  destruct (load_ok_inv w p llog model HL) as [_ [_ LL]].
  assert (F : filter shown (log_of (main w)) = [EvWrite Stderr (error_line w e)]).
  { rewrite E, LL. unfold log_of. cbn [fst filter shown]. rewrite filter_app, QS.
    reflexivity. }
  destruct (stderr_only (log_of (main w)) _ F) as [O R].
  split; [now rewrite E|]. split; [exact O|]. split; [exact R | reflexivity].
Qed.

Lemma predict_error_witness :
  let failing := {| predict := fun _ => inl (Exn ValueError "X has 2 features") |} in
  let s := {| Example.files := ["/data/in.csv"; "/app/model/RF_binary_v1.pickle"];
              Example.workdir := Some "/work"; Example.script := "/app/run.py";
              Example.argv0 := "/app/run.py"; Example.args := ["/data/in.csv"];
              Example.meipass := None;
              Example.tables := [("/data/in.csv", Example.table Example.good_rows)];
              Example.models := [("/app/model/RF_binary_v1.pickle", failing)] |} in
  let w := Example.world s in
  exit_status (result_of (main w)) = 2%Z /\
  written Stderr (log_of (main w)) = error_line w (Exn ValueError "X has 2 features").
Proof.
  cbv zeta.
  destruct (@predict_error_is_reported PosixPath
              (Example.world
                 {| Example.files := ["/data/in.csv"; "/app/model/RF_binary_v1.pickle"];
                    Example.workdir := Some "/work"; Example.script := "/app/run.py";
                    Example.argv0 := "/app/run.py"; Example.args := ["/data/in.csv"];
                    Example.meipass := None;
                    Example.tables := [("/data/in.csv", Example.table Example.good_rows)];
                    Example.models :=
                      [("/app/model/RF_binary_v1.pickle",
                        {| predict := fun _ => inl (Exn ValueError "X has 2 features") |})] |})
              {| ns_csv := "/data/in.csv"; ns_model := None |}
              [EvProbe (Path_of "/app/model/RF_binary_v1.pickle")]
              [EvProbe (Path_of "/app/model/RF_binary_v1.pickle");
               EvOpenModel (Path_of "/app/model/RF_binary_v1.pickle")]
              (Path_of "/app/model/RF_binary_v1.pickle")
              ["/app/model/RF_binary_v1.pickle"]
              (Example.table Example.good_rows)
              {| predict := fun _ => inl (Exn ValueError "X has 2 features") |}
              (Exn ValueError "X has 2 features")
              eq_refl eq_refl eq_refl eq_refl (le_n 1) eq_refl eq_refl)
    as [H1 [_ [H2 _]]].
  split; [exact H1 | exact H2].
Defined.

(** X11: when [read_csv] raises, the run ends there: the envelope on
    stderr is that of the exception of [read_csv], stdout stays empty,
    the exit code is 2, and the model is neither opened nor asked to
    predict, although its path has been resolved before. *)
Theorem read_csv_error_is_reported {PL : Pathlib} (w : World) (args : Namespace)
        (plog : list (event Path)) (p : Path) (tried : list string) (e : exn) :
  argparse w (sys_args w) = Parsed args ->
  path_exists w (Path_of (ns_csv args)) = true ->
  prepare_model_path w (ns_model args) = (plog, Ret (p, tried)) ->
  read_csv w (str (Path_of (ns_csv args))) = inl e ->
  exit_status (result_of (main w)) = 2%Z /\
  written Stdout (log_of (main w)) = EmptyString /\
  written Stderr (log_of (main w)) = error_line w e /\
  existsb is_model_work (log_of (main w)) = false /\
  probed (log_of (main w)) = Path_of (ns_csv args) :: probed plog.
Proof.
  intros HP HC HR HD.
  pose proof (main_read_csv_raises_eq w args plog p tried e HP HC HR HD) as E.
  pose proof (resolver_log_probes w _ _ _ HR) as Q.
  assert (F : filter shown (log_of (main w)) = [EvWrite Stderr (error_line w e)]).
  { rewrite E. unfold log_of. cbn [fst filter shown].
    rewrite filter_app, (shown_probes _ Q). reflexivity. }
  destruct (stderr_only (log_of (main w)) _ F) as [O R].
  split; [now rewrite E|]. split; [exact O|]. split; [exact R|].
  rewrite E. unfold log_of. cbn [fst existsb is_model_work probed orb].
  rewrite existsb_app, (model_work_probes _ Q), probed_app.
  cbn [existsb is_model_work probed orb]. split; [reflexivity|].
  now rewrite app_nil_r.
Qed.

Lemma read_csv_error_witness :
  let w := Example.world (Example.with_args Example.base ["/app/model/RF_binary_v1.pickle"]) in
  exit_status (result_of (main w)) = 2%Z /\
  written Stderr (log_of (main w))
  = error_line w (Exn (LibraryError "EmptyDataError") "No columns to parse from file").
Proof.
  cbv zeta.
  destruct (@read_csv_error_is_reported PosixPath
              (Example.world
                 (Example.with_args Example.base ["/app/model/RF_binary_v1.pickle"]))
              {| ns_csv := "/app/model/RF_binary_v1.pickle"; ns_model := None |}
              [EvProbe (Path_of "/app/model/RF_binary_v1.pickle")]
              (Path_of "/app/model/RF_binary_v1.pickle")
              ["/app/model/RF_binary_v1.pickle"]
              (Exn (LibraryError "EmptyDataError") "No columns to parse from file")
              eq_refl eq_refl eq_refl eq_refl)
    as [H1 [_ [H2 _]]].
  split; [exact H1 | exact H2].
Defined.

(** X12: every run of [main] ends in [sys.exit] with code 0 or 2, never
    by falling off the end or by an uncaught exception; a run that exits
    with 0 leaves stderr empty and a run that exits with 2 leaves stdout
    empty. *)
Theorem main_exits_zero_or_two {PL : Pathlib} (w : World) :
  (result_of (main w) = Exit 0 /\ written Stderr (log_of (main w)) = EmptyString) \/
  (result_of (main w) = Exit 2 /\ written Stdout (log_of (main w)) = EmptyString).
Proof.
  pose proof (main_shape w) as S.
  destruct (main w) as [log r]. unfold log_of, result_of. cbn [fst snd].
  inversion S as [l label F L|l e F|text|text]; subst.
  - left. split; [reflexivity|]. rewrite <- (written_shown Stderr log), F. reflexivity.
  - right. split; [reflexivity|]. rewrite <- (written_shown Stdout log), F. reflexivity.
  - right. split; reflexivity.
  - left. split; reflexivity.
Qed.

(** X13: [main] itself writes at most once, and what it writes is one
    line: the line feeds of a message or of a traceback are escaped by
    [json.dumps], so the only line feed is the final one. *)
Theorem main_writes_one_line {PL : Pathlib} (w : World) :
  length (filter is_write (log_of (main w))) <= 1 /\
  forall st s, In (EvWrite st s) (log_of (main w)) -> single_line s.
Proof.
  pose proof (main_shape w) as S.
  destruct (main w) as [log r]. unfold log_of. cbn [fst].
  inversion S as [l label F L|l e F|text|text]; subst.
  - split; [rewrite <- is_write_shown, F; cbn; lia|].
    intros st s H. apply in_write_shown in H. rewrite F in H.
    destruct H as [H | []]. inversion H.
    rewrite <- (success_line_eq L). apply JsonFacts.dumps_single_line.
  - split; [rewrite <- is_write_shown, F; cbn; lia|].
    intros st s H. apply in_write_shown in H. rewrite F in H.
    destruct H as [H | []]. inversion H. apply JsonFacts.dumps_single_line.
  - split; [cbn; lia|]. intros st s [H | []]. discriminate.
  - split; [cbn; lia|]. intros st s [H | []]. discriminate.
Qed.

Lemma length_default_paths {PL : Pathlib} (dirs : list Path) :
  length (default_paths dirs) = 2 * length dirs.
Proof.
  unfold default_paths. induction dirs as [|d ds IH]; [reflexivity|].
  cbn [flat_map]. rewrite length_app, IH. cbn [length map candidates]. lia.
Qed.

(** X14: without [--model] (or with an empty one) and with no default
    name in any candidate directory, the resolver probes the two names
    under every directory and returns the bare first default name; with
    a usable CSV, [main] then fails at the load: exit code 2, and a
    message that renders these two paths per directory and ends with the
    not-found text for the bare name. *)
Theorem bundled_model_missing {PL : Pathlib} (w : World) (args : Namespace)
        (c : Path) (df : DataFrame) :
  argparse w (sys_args w) = Parsed args ->
  match ns_model args with Some s => truthy s = false | None => True end ->
  path_exists w (Path_of (ns_csv args)) = true ->
  read_csv w (str (Path_of (ns_csv args))) = inr df ->
  0 < shape0 (dropna df) ->
  getcwd w = inr c ->
  cwd_relative w c ->
  first_existing w (default_paths (dirs_with_cwd w c)) = None ->
  let tried := map str (default_paths (dirs_with_cwd w c)) in
  let e := load_failed w tried (model_missing (Path_of "model/RF_binary_v1.pickle")) in
  prepare_model_path w (ns_model args)
  = (map (@EvProbe Path) (default_paths (dirs_with_cwd w c)),
     Ret (Path_of "model/RF_binary_v1.pickle", tried)) /\
  length tried = 2 * length (dirs_with_cwd w c) /\
  exit_status (result_of (main w)) = 2%Z /\
  written Stdout (log_of (main w)) = EmptyString /\
  written Stderr (log_of (main w)) = error_line w e /\
  exc_str e = "无法加载模型: attempted paths: " +++ py_list_repr w tried
              +++ ". Exception: 模型文件不存在: " +++ str (Path_of "model/RF_binary_v1.pickle").
Proof.
  intros HP HM HC HD HS Hc HW HF tried e.
  assert (R : prepare_model_path w (ns_model args)
              = (map (@EvProbe Path) (default_paths (dirs_with_cwd w c)),
                 Ret (Path_of "model/RF_binary_v1.pickle", tried))).
  { rewrite (prepare_default_eq w (ns_model args) HM), (default_flow_eq w [] Hc), HF.
    now rewrite (probed_until_none w _ HF). }
  assert (N : path_exists w (Path_of "model/RF_binary_v1.pickle") = false).
  { rewrite (HW "model/RF_binary_v1.pickle" (or_introl eq_refl)).
    apply (proj1 (first_existing_none w _) HF).
    unfold default_paths. apply in_flat_map. exists c.
    split; [apply in_append_if_new | now left]. }
  assert (L : load_model_from_path w (Path_of "model/RF_binary_v1.pickle")
              = ([EvProbe (Path_of "model/RF_binary_v1.pickle")],
                 Raise (model_missing (Path_of "model/RF_binary_v1.pickle")))).
  { unfold load_model_from_path. py_run. now rewrite N. }
  destruct (load_error_is_wrapped_core w args _ _ _ tried df _ HP HC R HD HS L)
    as [X1 [X2 X3]].
  split; [exact R|]. split.
  - unfold tried. rewrite length_map. apply length_default_paths.
  - split; [exact X1|]. split; [exact X2|]. split; [exact X3|].
    unfold e, load_failed, model_missing. cbn [exc_str].
    do 2 f_equal.
Qed.

Lemma bundled_model_missing_witness :
  let s := Example.with_files Example.base ["/data/in.csv"] in
  let w := Example.world s in
  exit_status (result_of (main w)) = 2%Z /\
  length (map str (default_paths (dirs_with_cwd w (Path_of "/work")))) = 4.
Proof.
  cbv zeta.
  destruct (@bundled_model_missing PosixPath
              (Example.world (Example.with_files Example.base ["/data/in.csv"]))
              {| ns_csv := "/data/in.csv"; ns_model := None |}
              (Path_of "/work") (Example.table Example.good_rows)
              eq_refl I eq_refl eq_refl (le_n 1) eq_refl)
    as [_ [H1 [H2 _]]].
  - intros name [<- | [<- | []]]; reflexivity.
  - reflexivity.
  - split; [exact H2 | exact H1].
Defined.
